(** * MiniVenmo: a shallow embedding of [code_challenge.py]

    The Python module keeps mutable [User] objects that refer to each other
    (friend sets, payments) and a [MiniVenmo] registry.  Objects live in a
    heap indexed by references, every method is a computation in a small
    state-and-exception monad, and Python's [float] is the kernel's binary64
    [float], so that rounding, infinities and NaN behave as they do when the
    program runs. *)

From Stdlib Require Import Floats ZArith String Ascii DecimalString.
From stdpp Require Import gmap strings list.

Local Open Scope string_scope.

(** ** Exceptions

    The module declares three exception classes; the seven failure
    conditions are told apart by the message the class is raised with. *)

Inductive exn : Type :=
| UsernameException (msg : string)
| PaymentException (msg : string)
| CreditCardException (msg : string).

Definition InvalidUsernameError : exn := UsernameException "Username not valid.".
Definition DuplicateUsernameError : exn := UsernameException "Username already taken.".
Definition SelfPaymentError : exn := PaymentException "User cannot pay themselves.".
Definition InvalidAmountError : exn := PaymentException "Amount must be a positive number.".
Definition InsufficientFundsError : exn :=
  PaymentException "Insufficient funds and no credit card available.".
Definition DuplicateCardError : exn := CreditCardException "Only one credit card per user!".
Definition InvalidCreditCardError : exn := CreditCardException "Invalid credit card number.".

(** ** Objects and the heap *)

(** A reference to a [User] object.  [User] defines neither [__eq__] nor
    [__hash__], so set membership and [!=] compare references. *)
Abbreviation ref := nat (only parsing).

Record User : Type := mkUser {
  username : string;
  balance : float;
  credit_card_number : option string;
  friends : gset nat;
  activity_feed : list string
}.

Record Payment : Type := mkPayment {
  id : string;
  amount : float;
  actor : nat;
  target : nat;
  note : string
}.

(** The state of a run: the [User] objects, the [users] dict of the
    [MiniVenmo] instance, and the source of [uuid.uuid4()] with the number of
    identifiers drawn so far. *)
Record World : Type := mkWorld {
  heap : gmap nat User;
  users : gmap string nat;
  uuid4 : nat -> string;
  drawn : nat
}.

Definition with_heap (f : gmap nat User -> gmap nat User) (w : World) : World :=
  mkWorld (f (heap w)) (users w) (uuid4 w) (drawn w).

Definition with_users (f : gmap string nat -> gmap string nat) (w : World) : World :=
  mkWorld (heap w) (f (users w)) (uuid4 w) (drawn w).

(** Field updates, one per attribute the program assigns. *)
Definition set_balance (b : float) (u : User) : User :=
  mkUser (username u) b (credit_card_number u) (friends u) (activity_feed u).

Definition set_credit_card_number (c : option string) (u : User) : User :=
  mkUser (username u) (balance u) c (friends u) (activity_feed u).

Definition friends_add (r : ref) (u : User) : User :=
  mkUser (username u) (balance u) (credit_card_number u) ({[ r ]} ∪ friends u)
         (activity_feed u).

Definition activity_feed_append (s : string) (u : User) : User :=
  mkUser (username u) (balance u) (credit_card_number u) (friends u)
         (activity_feed u ++ [s]).

(** ** The monad: state, and a result that is a value or a raised exception

    A raised exception leaves the state as it is at the raise: nothing is
    rolled back.  [Unbound] is the outcome of using a reference that is not
    in the heap; no Python run produces it. *)

Inductive result (A : Type) : Type :=
| Ok (a : A)
| Raise (e : exn)
| Unbound.
Arguments Ok {A} a.
Arguments Raise {A} e.
Arguments Unbound {A}.

Definition M (A : Type) : Type := World -> result A * World.

Definition ret {A} (a : A) : M A := fun w => (Ok a, w).

Definition bind {A B} (m : M A) (k : A -> M B) : M B :=
  fun w =>
    match m w with
    | (Ok a, w') => k a w'
    | (Raise e, w') => (Raise e, w')
    | (Unbound, w') => (Unbound, w')
    end.

Definition raise {A} (e : exn) : M A := fun w => (Raise e, w).

Declare Scope venmo_scope.
Delimit Scope venmo_scope with venmo.
Notation "'let!' x ':=' c1 'in' c2" := (bind c1 (fun x => c2))
  (at level 10, x name, c1 at level 100, c2 at level 200) : venmo_scope.
Local Open Scope venmo_scope.

(** Read the object behind a reference. *)
Definition load (r : ref) : M User :=
  fun w =>
    match heap w !! r with
    | Some u => (Ok u, w)
    | None => (Unbound, w)
    end.

(** Assign to attributes of the object behind a reference. *)
Definition update (r : ref) (f : User -> User) : M unit :=
  fun w =>
    match heap w !! r with
    | Some u => (Ok tt, with_heap (insert r (f u)) w)
    | None => (Unbound, w)
    end.

(** Allocate a new object. *)
Definition alloc (u : User) : M ref :=
  fun w =>
    let r := fresh (dom (heap w)) in
    (Ok r, with_heap (insert r u) w).

(** Python truthiness of a [str | None]. *)
Definition truthy (c : option string) : bool :=
  match c with
  | Some s => negb (String.eqb s "")
  | None => false
  end.

(** ** Identity validators

    A [string] is a sequence of characters with codes below 256; the
    characters Python has beyond them are outside every class below. *)

Definition in_range (lo hi : nat) (c : ascii) : bool :=
  (lo <=? nat_of_ascii c)%nat && (nat_of_ascii c <=? hi)%nat.

(** The character class of the pattern in [_is_valid_username].  The pattern
    is the raw string [^[A-Za-z0-9_\\-]{4,15}$]: inside the brackets the two
    backslashes are an escaped backslash, and the hyphen before the closing
    bracket is a literal hyphen. *)
Definition username_class (c : ascii) : bool :=
  in_range 65 90 c || in_range 97 122 c || in_range 48 57 c
  || (nat_of_ascii c =? 95)%nat
  || (nat_of_ascii c =? 92)%nat
  || (nat_of_ascii c =? 45)%nat.

(** [$] without [re.MULTILINE]: the end of the string, or just before a
    newline that is the last character. *)
Definition at_dollar (s : string) : bool :=
  match s with
  | EmptyString => true
  | String c EmptyString => (nat_of_ascii c =? 10)%nat
  | _ => false
  end.

(** Backtracking match of [[class]{lo,hi}$] at the start of [s]: take one
    more character of the class while [hi] allows it, or stop once [lo] is
    reached and try [$]. *)
Fixpoint match_repeat_dollar (cls : ascii -> bool) (lo hi : nat) (s : string) : bool :=
  match hi with
  | O => (lo =? 0)%nat && at_dollar s
  | S hi' =>
      match s with
      | String c s' => cls c && match_repeat_dollar cls (pred lo) hi' s'
      | EmptyString => false
      end
      || ((lo =? 0)%nat && at_dollar s)
  end.

(** [bool(re.match(r"^[A-Za-z0-9_\\-]{4,15}$", username))] *)
Definition _is_valid_username (username : string) : bool :=
  match_repeat_dollar username_class 4 15 username.

(** [credit_card_number in {"4111111111111111", "4242424242424242"}] *)
Definition _is_valid_credit_card (credit_card_number : string) : bool :=
  String.eqb credit_card_number "4111111111111111"
  || String.eqb credit_card_number "4242424242424242".

(** The pattern as the specification words it: 4 to 15 characters, each a
    letter, a digit, an underscore or a hyphen. *)
Definition spec_username_class (c : ascii) : bool :=
  in_range 65 90 c || in_range 97 122 c || in_range 48 57 c
  || (nat_of_ascii c =? 95)%nat
  || (nat_of_ascii c =? 45)%nat.

Definition spec_username_pattern (s : string) : bool :=
  (4 <=? String.length s)%nat && (String.length s <=? 15)%nat
  && forallb spec_username_class (list_ascii_of_string s).

(** ** Rendering a float with [:.2f]

    A finite binary64 value is [m * 2^e] exactly.  Python prints the decimal
    nearest to that exact value with two digits after the point, ties going
    to the even neighbour; the sign is printed from the sign bit, also for a
    value that rounds to zero; infinities and NaN print as words. *)

Definition round_half_even (n d : Z) : Z :=
  let q := (n / d)%Z in
  match (2 * (n mod d) ?= d)%Z with
  | Lt => q
  | Gt => (q + 1)%Z
  | Eq => if Z.even q then q else (q + 1)%Z
  end.

(** The value [m * 2^e] in hundredths, rounded. *)
Definition hundredths (m : positive) (e : Z) : Z :=
  if (0 <=? e)%Z then (Z.pos m * 2 ^ e * 100)%Z
  else round_half_even (Z.pos m * 100) (2 ^ (- e)).

Definition digit (n : Z) : ascii := ascii_of_nat (48 + Z.to_nat n).

Definition decimal (n : Z) : string := NilZero.string_of_uint (N.to_uint (Z.to_N n)).

Definition two_digits (n : Z) : string :=
  String (digit (n / 10)) (String (digit (n mod 10)) EmptyString).

Definition sign_prefix (s : bool) : string := if s then "-" else "".

Definition format_2f (x : float) : string :=
  match Prim2SF x with
  | S754_nan => "nan"
  | S754_infinity s => sign_prefix s ++ "inf"
  | S754_zero s => sign_prefix s ++ "0.00"
  | S754_finite s m e =>
      let c := hundredths m e in
      sign_prefix s ++ decimal (c / 100) ++ "." ++ two_digits (c mod 100)
  end.

(** ** Payment *)

(** [Payment.__init__]: draws the identifier, and stores [float(amount)],
    which is [amount] itself for a float. *)
Definition Payment_init (amount : float) (actor target : ref) (note : string) : M Payment :=
  fun w =>
    (Ok (mkPayment (uuid4 w (drawn w)) amount actor target note),
     mkWorld (heap w) (users w) (uuid4 w) (S (drawn w))).

(** [Payment.__str__]: reads the two usernames through the references. *)
Definition Payment_str (p : Payment) : M string :=
  let! a := load (actor p) in
  let! t := load (target p) in
  ret (username a ++ " paid " ++ username t ++ " $" ++ format_2f (amount p)
       ++ " for " ++ note p).

(** ** User *)

(** [User.__init__]: the object exists for the caller only when the
    username is valid. *)
Definition User_init (username : string) : M ref :=
  if _is_valid_username username
  then alloc (mkUser username 0%float None ∅ [])
  else raise InvalidUsernameError.

(** [retrieve_feed] returns the list object itself; the model returns what it
    holds at the time of the call. *)
Definition retrieve_feed (self : ref) : M (list string) :=
  let! u := load self in
  ret (activity_feed u).

Definition add_friend (self new_friend : ref) : M unit :=
  let! u := load self in
  if decide (new_friend ∈ friends u) then ret tt
  else
    let! _ := update self (friends_add new_friend) in
    let! _ := update new_friend (friends_add self) in
    let! us := load self in
    let! un := load new_friend in
    let message := username us ++ " and " ++ username un ++ " are now friends." in
    let! _ := update self (activity_feed_append message) in
    update new_friend (activity_feed_append message).

Definition add_to_balance (self : ref) (amount : float) : M unit :=
  let! u := load self in
  update self (set_balance (balance u + amount)%float).

Definition add_credit_card (self : ref) (number : string) : M unit :=
  let! u := load self in
  match credit_card_number u with
  | Some _ => raise DuplicateCardError
  | None =>
      if _is_valid_credit_card number
      then update self (set_credit_card_number (Some number))
      else raise InvalidCreditCardError
  end.

(** Simulates credit card processing: [pass]. *)
Definition _charge_credit_card (self : ref) (number : option string) : M unit :=
  ret tt.

Definition pay_with_balance (self target : ref) (amount : float) (note : string)
  : M Payment :=
  let! u := load self in
  let! _ := update self (set_balance (balance u - amount)%float) in
  let! payment := Payment_init amount self target note in
  let! _ := add_to_balance target amount in
  let! s1 := Payment_str payment in
  let! _ := update self (activity_feed_append s1) in
  let! s2 := Payment_str payment in
  let! _ := update target (activity_feed_append s2) in
  ret payment.

Definition pay_with_card (self target : ref) (amount : float) (note : string)
  : M Payment :=
  let! u := load self in
  let! _ := _charge_credit_card self (credit_card_number u) in
  let! payment := Payment_init amount self target note in
  let! _ := (if decide (target ≠ self) then add_to_balance target amount else ret tt) in
  let! s1 := Payment_str payment in
  let! _ := update self (activity_feed_append s1) in
  let! s2 := Payment_str payment in
  let! _ := update target (activity_feed_append s2) in
  ret payment.

Definition pay (self target : ref) (amount : float) (note : string) : M Payment :=
  let! u := load self in
  let! t := load target in
  if decide (username u = username t) then raise SelfPaymentError
  else if (amount <=? 0)%float then raise InvalidAmountError
  else if (amount <=? balance u)%float then pay_with_balance self target amount note
  else if truthy (credit_card_number u) then pay_with_card self target amount note
  else raise InsufficientFundsError.

(** ** MiniVenmo *)

Definition create_user (username : string) (balance : float)
  (credit_card_number : option string) : M ref :=
  fun w =>
    match users w !! username with
    | Some _ => (Raise DuplicateUsernameError, w)
    | None =>
        (let! user := User_init username in
         let! _ := add_to_balance user balance in
         let! _ := (match credit_card_number with
                    | Some number =>
                        if truthy credit_card_number then add_credit_card user number
                        else ret tt
                    | None => ret tt
                    end) in
         let! _ := (fun w' => (Ok tt, with_users (insert username user) w')) in
         ret user) w
    end.

(** * Properties *)

(** ** Stepping through a computation *)

Section monad_facts.
Context {A B : Type}.
Implicit Types (m : M A) (k : A -> M B).

Lemma bind_ok m k w a w1 :
  m w = (Ok a, w1) -> bind m k w = k a w1.
Proof. intros H. unfold bind. now rewrite H. Qed.

Lemma bind_raise_inv m k w e w' :
  bind m k w = (Raise e, w') ->
  m w = (Raise e, w') \/ exists a w1, m w = (Ok a, w1) /\ k a w1 = (Raise e, w').
Proof.
  unfold bind. destruct (m w) as [[a | e1 | ] w1]; intros H.
  - right. eauto.
  - left. inversion H. reflexivity.
  - discriminate H.
Qed.

Lemma bind_ok_inv m k w b w' :
  bind m k w = (Ok b, w') ->
  exists a w1, m w = (Ok a, w1) /\ k a w1 = (Ok b, w').
Proof.
  unfold bind. destruct (m w) as [[a | e1 | ] w1]; intros H.
  - eauto.
  - discriminate H.
  - discriminate H.
Qed.
End monad_facts.

Lemma load_some w r u : heap w !! r = Some u -> load r w = (Ok u, w).
Proof. intros H. unfold load. now rewrite H. Qed.

Lemma load_ok_inv w r u w' : load r w = (Ok u, w') -> heap w !! r = Some u /\ w' = w.
Proof.
  unfold load. destruct (heap w !! r); intros H; inversion H; auto.
Qed.

(** ** Computations that raise nothing *)

Definition never_raises {A} (m : M A) : Prop :=
  forall w e w', m w <> (Raise e, w').

Lemma never_raises_ret {A} (a : A) : never_raises (ret a).
Proof. intros w e w' H. discriminate H. Qed.

Lemma never_raises_bind {A B} (m : M A) (k : A -> M B) :
  never_raises m -> (forall a, never_raises (k a)) -> never_raises (bind m k).
Proof.
  intros Hm Hk w e w' H.
  destruct (bind_raise_inv _ _ _ _ _ H) as [H1 | (a & w1 & _ & H2)].
  - exact (Hm _ _ _ H1).
  - exact (Hk _ _ _ _ H2).
Qed.

Lemma never_raises_load r : never_raises (load r).
Proof. intros w e w'. unfold load. destruct (heap w !! r); discriminate. Qed.

Lemma never_raises_update r f : never_raises (update r f).
Proof. intros w e w'. unfold update. destruct (heap w !! r); discriminate. Qed.

Lemma never_raises_Payment_init a s t n : never_raises (Payment_init a s t n).
Proof. intros w e w'. discriminate. Qed.

Create HintDb venmo discriminated.
#[local] Hint Resolve never_raises_ret never_raises_load never_raises_update
  never_raises_Payment_init : venmo.

Ltac never_raises_steps :=
  repeat first
    [ apply never_raises_bind; [ | intros ? ]
    | solve [ auto with venmo ] ].

Lemma never_raises_Payment_str p : never_raises (Payment_str p).
Proof. unfold Payment_str. never_raises_steps. Qed.

Lemma never_raises_add_to_balance r a : never_raises (add_to_balance r a).
Proof. unfold add_to_balance. never_raises_steps. Qed.

#[local] Hint Resolve never_raises_Payment_str never_raises_add_to_balance : venmo.

Lemma never_raises_pay_with_balance s t a n : never_raises (pay_with_balance s t a n).
Proof. unfold pay_with_balance. never_raises_steps. Qed.

Lemma never_raises_pay_with_card s t a n : never_raises (pay_with_card s t a n).
Proof.
  unfold pay_with_card, _charge_credit_card. never_raises_steps.
  destruct (decide (t ≠ s)); auto with venmo.
Qed.

(** ** Validation in [pay] *)

(** The outcome of [pay] when the two usernames are equal, whatever the
    amount, the balance and the card. *)
Lemma pay_same_username w self target u t amount note :
  heap w !! self = Some u ->
  heap w !! target = Some t ->
  username u = username t ->
  pay self target amount note w = (Raise SelfPaymentError, w).
Proof.
  intros Hs Ht Hn. unfold pay.
  rewrite (bind_ok _ _ _ _ _ (load_some _ _ _ Hs)).
  rewrite (bind_ok _ _ _ _ _ (load_some _ _ _ Ht)).
  destruct (decide (username u = username t)); [ reflexivity | contradiction ].
Qed.

(** C6: a user who pays themselves gets SelfPaymentError for every amount
    (also a non-positive one, so the check comes before the amount check),
    every balance and every card state, and the state is left as it was. *)
Theorem pay_self_fails w self u amount note :
  heap w !! self = Some u ->
  pay self self amount note w = (Raise SelfPaymentError, w).
Proof.
  intros Hs. now apply (pay_same_username w self self u u).
Qed.

(** C4: when [pay] raises, the state after the call is the state before it:
    balances, feeds, friend sets and cards of all users are untouched; and
    the exception is one of the three that [pay] declares. *)
Theorem pay_raise_no_mutation w self target amount note e w' :
  pay self target amount note w = (Raise e, w') ->
  w' = w /\
  (e = SelfPaymentError \/ e = InvalidAmountError \/ e = InsufficientFundsError).
Proof.
  unfold pay. intros H.
  apply bind_raise_inv in H as [H | (u & w1 & Hu & H)].
  { now apply never_raises_load in H. }
  apply load_ok_inv in Hu as [_ ->].
  apply bind_raise_inv in H as [H | (t & w1 & Ht & H)].
  { now apply never_raises_load in H. }
  apply load_ok_inv in Ht as [_ ->].
  destruct (decide (username u = username t)).
  { inversion H; auto. }
  destruct (amount <=? 0)%float.
  { inversion H; auto. }
  destruct (amount <=? balance u)%float.
  { now apply never_raises_pay_with_balance in H. }
  destruct (truthy (credit_card_number u)).
  { now apply never_raises_pay_with_card in H. }
  inversion H; auto.
Qed.

(** ** Choice of the funding source *)

(** [amount > 0] excludes [amount <= 0.0], also on NaN and infinities. *)
Lemma positive_not_le_zero (a : float) :
  (0 <? a)%float = true -> (a <=? 0)%float = false.
Proof.
  rewrite ltb_spec, leb_spec.
  change (Prim2SF 0) with (S754_zero false).
  unfold SFltb, SFleb.
  destruct (Prim2SF a) as [s | s | | s m e]; simpl; try discriminate;
    destruct s; simpl; congruence.
Qed.

(** The card field holds nothing or a number of the allow-list: what
    [__init__] and [add_credit_card], its only writers, store. *)
Definition card_valid (u : User) : Prop :=
  match credit_card_number u with
  | Some c => _is_valid_credit_card c = true
  | None => True
  end.

Lemma valid_card_truthy c : _is_valid_credit_card c = true -> truthy (Some c) = true.
Proof.
  unfold _is_valid_credit_card, truthy. intros H.
  apply orb_true_iff in H as [H | H]; apply String.eqb_eq in H; subst c; reflexivity.
Qed.

(** C1: for a payment between users of different usernames and an amount
    above zero, [pay] is the balance path when the balance covers the
    amount; otherwise it is the card path when a card is set; otherwise it
    raises InsufficientFundsError and leaves the state as it was. *)
Theorem pay_funding_source w self target u t amount note :
  heap w !! self = Some u ->
  heap w !! target = Some t ->
  username u <> username t ->
  (0 <? amount)%float = true ->
  card_valid u ->
  if (amount <=? balance u)%float
  then pay self target amount note w = pay_with_balance self target amount note w
  else match credit_card_number u with
       | Some _ => pay self target amount note w = pay_with_card self target amount note w
       | None => pay self target amount note w = (Raise InsufficientFundsError, w)
       end.
Proof.
  intros Hs Ht Hn Hpos Hcard. unfold pay.
  rewrite (bind_ok _ _ _ _ _ (load_some _ _ _ Hs)).
  rewrite (bind_ok _ _ _ _ _ (load_some _ _ _ Ht)).
  destruct (decide (username u = username t)) as [Heq | _]; [ contradiction | ].
  rewrite (positive_not_le_zero _ Hpos).
  destruct (amount <=? balance u)%float; [ reflexivity | ].
  unfold card_valid in Hcard.
  destruct (credit_card_number u) as [c | ].
  - now rewrite (valid_card_truthy _ Hcard).
  - reflexivity.
Qed.

(** ** What the two paths do *)

(** The string [Payment.__str__] builds, from the two users. *)
Definition payment_message (u t : User) (amount : float) (note : string) : string :=
  username u ++ " paid " ++ username t ++ " $" ++ format_2f amount ++ " for " ++ note.

Ltac exec_step :=
  first
    [ rewrite lookup_insert_eq
    | rewrite lookup_insert_ne by congruence
    | match goal with H : heap _ !! _ = Some _ |- _ => rewrite H end ].

(** Symbolic execution of a computation whose references are known to be
    bound. *)
Ltac exec :=
  repeat (progress
    (unfold bind, load, update, ret, raise, Payment_init, Payment_str,
       add_to_balance, _charge_credit_card, with_heap, with_users;
     cbn [heap users uuid4 drawn fst snd actor target amount note id];
     repeat exec_step)).

Ltac user_fields :=
  cbn [username balance credit_card_number friends activity_feed
       set_balance set_credit_card_number friends_add activity_feed_append].

Lemma pay_with_balance_effect w self target u t amount note :
  self <> target ->
  heap w !! self = Some u ->
  heap w !! target = Some t ->
  exists w',
    pay_with_balance self target amount note w
    = (Ok (mkPayment (uuid4 w (drawn w)) amount self target note), w')
    /\ heap w' !! self
       = Some (mkUser (username u) (balance u - amount)%float (credit_card_number u)
                 (friends u) (activity_feed u ++ [payment_message u t amount note]))
    /\ heap w' !! target
       = Some (mkUser (username t) (balance t + amount)%float (credit_card_number t)
                 (friends t) (activity_feed t ++ [payment_message u t amount note]))
    /\ (forall r, r <> self -> r <> target -> heap w' !! r = heap w !! r)
    /\ users w' = users w.
Proof.
  intros Hne Hs Ht. eexists. split.
  - unfold pay_with_balance. exec. reflexivity.
  - cbn [heap users]. repeat split.
    + rewrite lookup_insert_ne by congruence. now rewrite lookup_insert_eq.
    + now rewrite lookup_insert_eq.
    + intros r Hrs Hrt. now rewrite !lookup_insert_ne by congruence.
Qed.

Lemma pay_with_card_effect w self target u t amount note :
  self <> target ->
  heap w !! self = Some u ->
  heap w !! target = Some t ->
  exists w',
    pay_with_card self target amount note w
    = (Ok (mkPayment (uuid4 w (drawn w)) amount self target note), w')
    /\ heap w' !! self
       = Some (mkUser (username u) (balance u) (credit_card_number u)
                 (friends u) (activity_feed u ++ [payment_message u t amount note]))
    /\ heap w' !! target
       = Some (mkUser (username t) (balance t + amount)%float (credit_card_number t)
                 (friends t) (activity_feed t ++ [payment_message u t amount note]))
    /\ (forall r, r <> self -> r <> target -> heap w' !! r = heap w !! r)
    /\ users w' = users w.
Proof.
  intros Hne Hs Ht. eexists. split.
  - unfold pay_with_card. exec.
    destruct (decide (target ≠ self)) as [_ | Heq];
      [ | exfalso; apply Heq; congruence ].
    exec. reflexivity.
  - cbn [heap users]. repeat split.
    + rewrite lookup_insert_ne by congruence. now rewrite lookup_insert_eq.
    + now rewrite lookup_insert_eq.
    + intros r Hrs Hrt. now rewrite !lookup_insert_ne by congruence.
Qed.

(** Two users with different usernames are two objects. *)
Lemma distinct_usernames_distinct_refs w self target u t :
  heap w !! self = Some u ->
  heap w !! target = Some t ->
  username u <> username t ->
  self <> target.
Proof. intros Hs Ht Hn ->. rewrite Hs in Ht. congruence. Qed.

(** [pay] on the balance path and on the card path, from the conditions the
    code tests. *)
Lemma pay_balance_path w self target u t amount note :
  heap w !! self = Some u ->
  heap w !! target = Some t ->
  username u <> username t ->
  (amount <=? 0)%float = false ->
  (amount <=? balance u)%float = true ->
  pay self target amount note w = pay_with_balance self target amount note w.
Proof.
  intros Hs Ht Hn Hpos Hbal. unfold pay.
  rewrite (bind_ok _ _ _ _ _ (load_some _ _ _ Hs)).
  rewrite (bind_ok _ _ _ _ _ (load_some _ _ _ Ht)).
  destruct (decide (username u = username t)); [ contradiction | ].
  now rewrite Hpos, Hbal.
Qed.

Lemma pay_card_path w self target u t amount note :
  heap w !! self = Some u ->
  heap w !! target = Some t ->
  username u <> username t ->
  (amount <=? 0)%float = false ->
  (amount <=? balance u)%float = false ->
  truthy (credit_card_number u) = true ->
  pay self target amount note w = pay_with_card self target amount note w.
Proof.
  intros Hs Ht Hn Hpos Hbal Hcard. unfold pay.
  rewrite (bind_ok _ _ _ _ _ (load_some _ _ _ Hs)).
  rewrite (bind_ok _ _ _ _ _ (load_some _ _ _ Ht)).
  destruct (decide (username u = username t)); [ contradiction | ].
  now rewrite Hpos, Hbal, Hcard.
Qed.

(** C2, as the code has it: a payment that [pay] funds from the balance
    succeeds, the actor's balance becomes the float difference
    [balance - amount], the target's balance becomes the float sum
    [balance + amount], and no other user changes.  Each of the two results
    is rounded to binary64, so the sum of the pair is not conserved in
    general. *)
Theorem pay_balance_transfer w self target u t amount note :
  heap w !! self = Some u ->
  heap w !! target = Some t ->
  username u <> username t ->
  (amount <=? 0)%float = false ->
  (amount <=? balance u)%float = true ->
  exists p w' u' t',
    pay self target amount note w = (Ok p, w')
    /\ heap w' !! self = Some u'
    /\ heap w' !! target = Some t'
    /\ balance u' = (balance u - amount)%float
    /\ balance t' = (balance t + amount)%float
    /\ (forall r, r <> self -> r <> target -> heap w' !! r = heap w !! r).
Proof.
  intros Hs Ht Hn Hpos Hbal.
  pose proof (distinct_usernames_distinct_refs _ _ _ _ _ Hs Ht Hn) as Hne.
  destruct (pay_with_balance_effect w self target u t amount note Hne Hs Ht)
    as (w' & Hrun & Hs' & Ht' & Hframe & _).
  rewrite <- (pay_balance_path _ _ _ _ _ _ _ Hs Ht Hn Hpos Hbal) in Hrun.
  eexists _, w', _, _.
  split; [ exact Hrun | ]. split; [ exact Hs' | ]. split; [ exact Ht' | ].
  cbn [balance]. auto.
Qed.

(** C3, as the code has it: a payment that [pay] funds from the card
    succeeds, the target's balance becomes the float sum [balance + amount],
    rounded to binary64 (so it need not be higher by exactly the amount), the
    actor's balance is the one it had, and no other user changes. *)
Theorem pay_card_transfer w self target u t amount note :
  heap w !! self = Some u ->
  heap w !! target = Some t ->
  username u <> username t ->
  (amount <=? 0)%float = false ->
  (amount <=? balance u)%float = false ->
  truthy (credit_card_number u) = true ->
  exists p w' u' t',
    pay self target amount note w = (Ok p, w')
    /\ heap w' !! self = Some u'
    /\ heap w' !! target = Some t'
    /\ balance u' = balance u
    /\ balance t' = (balance t + amount)%float
    /\ (forall r, r <> self -> r <> target -> heap w' !! r = heap w !! r).
Proof.
  intros Hs Ht Hn Hpos Hbal Hcard.
  pose proof (distinct_usernames_distinct_refs _ _ _ _ _ Hs Ht Hn) as Hne.
  destruct (pay_with_card_effect w self target u t amount note Hne Hs Ht)
    as (w' & Hrun & Hs' & Ht' & Hframe & _).
  rewrite <- (pay_card_path _ _ _ _ _ _ _ Hs Ht Hn Hpos Hbal Hcard) in Hrun.
  eexists _, w', _, _.
  split; [ exact Hrun | ]. split; [ exact Hs' | ]. split; [ exact Ht' | ].
  cbn [balance]. auto.
Qed.

(** ** Rendering *)

(** [math.isfinite]. *)
Definition isfinite (x : float) : bool :=
  match Prim2SF x with
  | S754_zero _ | S754_finite _ _ _ => true
  | S754_infinity _ | S754_nan => false
  end.

Definition is_digit (c : ascii) : bool := in_range 48 57 c.

(** A rendering with exactly two decimal digits: it ends with a point and
    two digits. *)
Definition two_decimals (s : string) : Prop :=
  exists ip d1 d2,
    s = ip ++ "." ++ String d1 (String d2 EmptyString)
    /\ is_digit d1 = true /\ is_digit d2 = true.

Lemma string_app_assoc (a b c : string) : (a ++ b) ++ c = a ++ (b ++ c).
Proof.
  induction a as [ | x a IH]; [ reflexivity | ].
  change (String x ((a ++ b) ++ c) = String x (a ++ (b ++ c))).
  now f_equal.
Qed.

Lemma digit_is_digit (n : Z) : (0 <= n < 10)%Z -> is_digit (digit n) = true.
Proof.
  intros H.
  assert (Hn : exists k, (k < 10)%nat /\ n = Z.of_nat k).
  { exists (Z.to_nat n). split; lia. }
  destruct Hn as (k & Hk & ->).
  do 10 (destruct k as [ | k]; [ reflexivity | ]). lia.
Qed.

Lemma two_digits_two_decimals (ip : string) (c : Z) :
  (0 <= c < 100)%Z -> two_decimals (ip ++ "." ++ two_digits c).
Proof.
  intros H. exists ip, (digit (c / 10)), (digit (c mod 10)).
  split; [ reflexivity | ]. split; apply digit_is_digit.
  - split; [ apply Z.div_pos; lia | apply Z.div_lt_upper_bound; lia ].
  - apply Z.mod_pos_bound. lia.
Qed.

(** A finite float is rendered with exactly two decimal digits. *)
Lemma format_2f_two_decimals (x : float) :
  isfinite x = true -> two_decimals (format_2f x).
Proof.
  unfold isfinite, format_2f.
  destruct (Prim2SF x) as [s | s | | s m e]; try discriminate; intros _.
  - change "0.00" with ("0" ++ "." ++ two_digits 0).
    rewrite <- string_app_assoc. apply two_digits_two_decimals. lia.
  - cbv zeta. rewrite <- string_app_assoc.
    apply two_digits_two_decimals. apply Z.mod_pos_bound. lia.
Qed.

(** Infinities and NaN are rendered as words. *)
Lemma format_2f_words :
  format_2f infinity = "inf" /\ format_2f neg_infinity = "-inf" /\ format_2f nan = "nan".
Proof. repeat split. Qed.

Lemma not_two_decimals_inf : ~ two_decimals "inf".
Proof.
  intros (ip & d1 & d2 & H & _).
  destruct ip as [ | a [ | b [ | c [ | d ip]]]]; simpl in H; discriminate H.
Qed.

(** A successful [pay] went through one of the two paths. *)
Lemma pay_ok_inv w self target amount note p w' :
  pay self target amount note w = (Ok p, w') ->
  exists u t,
    heap w !! self = Some u /\ heap w !! target = Some t
    /\ username u <> username t
    /\ (pay_with_balance self target amount note w = (Ok p, w')
        \/ pay_with_card self target amount note w = (Ok p, w')).
Proof.
  unfold pay. intros H.
  apply bind_ok_inv in H as (u & w1 & Hu & H).
  apply load_ok_inv in Hu as [Hu ->].
  apply bind_ok_inv in H as (t & w1 & Ht & H).
  apply load_ok_inv in Ht as [Ht ->].
  exists u, t. split; [ exact Hu | ]. split; [ exact Ht | ].
  destruct (decide (username u = username t)); [ discriminate H | ].
  destruct (amount <=? 0)%float; [ discriminate H | ].
  split; [ assumption | ].
  destruct (amount <=? balance u)%float; [ now left | ].
  destruct (truthy (credit_card_number u)); [ now right | discriminate H ].
Qed.

(** C9, as the code has it: every successful payment appends one and the
    same string, [actor paid target $amount for note], at the end of the
    actor's feed and of the target's feed, the entries already there staying
    in their order, and [retrieve_feed] returns the feed so extended.  The
    amount is rendered by [:.2f]: with exactly two decimal digits when it is
    finite. *)
Theorem pay_appends_message w self target u t amount note p w' :
  pay self target amount note w = (Ok p, w') ->
  heap w !! self = Some u ->
  heap w !! target = Some t ->
  (exists u' t',
     heap w' !! self = Some u' /\ heap w' !! target = Some t'
     /\ activity_feed u' = (activity_feed u ++ [payment_message u t amount note])%list
     /\ activity_feed t' = (activity_feed t ++ [payment_message u t amount note])%list)
  /\ retrieve_feed self w'
     = (Ok (activity_feed u ++ [payment_message u t amount note])%list, w')
  /\ (isfinite amount = true -> two_decimals (format_2f amount)).
Proof.
  intros Hpay Hs Ht.
  destruct (pay_ok_inv _ _ _ _ _ _ _ Hpay) as (u0 & t0 & Hs0 & Ht0 & Hn & Hpath).
  rewrite Hs in Hs0. rewrite Ht in Ht0.
  injection Hs0 as <-. injection Ht0 as <-.
  pose proof (distinct_usernames_distinct_refs _ _ _ _ _ Hs Ht Hn) as Hne.
  assert (Hfeeds : exists u' t',
     heap w' !! self = Some u' /\ heap w' !! target = Some t'
     /\ activity_feed u' = (activity_feed u ++ [payment_message u t amount note])%list
     /\ activity_feed t' = (activity_feed t ++ [payment_message u t amount note])%list).
  { destruct Hpath as [Hrun | Hrun].
    - destruct (pay_with_balance_effect w self target u t amount note Hne Hs Ht)
        as (w1 & Hrun1 & Hs' & Ht' & _).
      rewrite Hrun in Hrun1. injection Hrun1 as _ <-.
      eexists _, _. split; [ exact Hs' | ]. split; [ exact Ht' | ]. auto.
    - destruct (pay_with_card_effect w self target u t amount note Hne Hs Ht)
        as (w1 & Hrun1 & Hs' & Ht' & _).
      rewrite Hrun in Hrun1. injection Hrun1 as _ <-.
      eexists _, _. split; [ exact Hs' | ]. split; [ exact Ht' | ]. auto. }
  split; [ exact Hfeeds | ]. split.
  - destruct Hfeeds as (u' & t' & Hs' & _ & Hfeed & _).
    unfold retrieve_feed.
    rewrite (bind_ok _ _ _ _ _ (load_some _ _ _ Hs')).
    unfold ret. now rewrite Hfeed.
  - apply format_2f_two_decimals.
Qed.

(** ** Friends *)

Definition friends_message (u n : User) : string :=
  username u ++ " and " ++ username n ++ " are now friends.".

(** Adding someone who is in the friend set already changes nothing. *)
Lemma add_friend_of_friend w self new_friend u :
  heap w !! self = Some u ->
  new_friend ∈ friends u ->
  add_friend self new_friend w = (Ok tt, w).
Proof.
  intros Hs Hin. unfold add_friend.
  rewrite (bind_ok _ _ _ _ _ (load_some _ _ _ Hs)).
  destruct (decide (new_friend ∈ friends u)); [ reflexivity | contradiction ].
Qed.

(** The first call, between two users who are not friends yet. *)
Lemma add_friend_effect w self new_friend u n :
  self <> new_friend ->
  heap w !! self = Some u ->
  heap w !! new_friend = Some n ->
  new_friend ∉ friends u ->
  exists w1,
    add_friend self new_friend w = (Ok tt, w1)
    /\ heap w1 !! self
       = Some (mkUser (username u) (balance u) (credit_card_number u)
                 ({[ new_friend ]} ∪ friends u)
                 (activity_feed u ++ [friends_message u n]))
    /\ heap w1 !! new_friend
       = Some (mkUser (username n) (balance n) (credit_card_number n)
                 ({[ self ]} ∪ friends n)
                 (activity_feed n ++ [friends_message u n]))
    /\ (forall r, r <> self -> r <> new_friend -> heap w1 !! r = heap w !! r).
Proof.
  intros Hne Hs Hn Hnot. eexists. split.
  - unfold add_friend.
    rewrite (bind_ok _ _ _ _ _ (load_some _ _ _ Hs)).
    destruct (decide (new_friend ∈ friends u)); [ contradiction | ].
    exec. reflexivity.
  - cbn [heap]. repeat split.
    + rewrite lookup_insert_ne by congruence. now rewrite lookup_insert_eq.
    + now rewrite lookup_insert_eq.
    + intros r Hrs Hrn. now rewrite !lookup_insert_ne by congruence.
Qed.

(** C7: between two distinct users who are not friends yet, [add_friend]
    puts each in the other's friend set and appends one friendship message to
    each feed; a second call, by either of the two, returns with the state
    unchanged, so each feed has got exactly one message and each set one
    membership. *)
Theorem add_friend_idempotent w a b ua ub :
  a <> b ->
  heap w !! a = Some ua ->
  heap w !! b = Some ub ->
  b ∉ friends ua ->
  exists w1 ua1 ub1,
    add_friend a b w = (Ok tt, w1)
    /\ heap w1 !! a = Some ua1 /\ heap w1 !! b = Some ub1
    /\ friends ua1 = {[ b ]} ∪ friends ua
    /\ friends ub1 = {[ a ]} ∪ friends ub
    /\ activity_feed ua1 = (activity_feed ua ++ [friends_message ua ub])%list
    /\ activity_feed ub1 = (activity_feed ub ++ [friends_message ua ub])%list
    /\ add_friend a b w1 = (Ok tt, w1)
    /\ add_friend b a w1 = (Ok tt, w1).
Proof.
  intros Hne Ha Hb Hnot.
  destruct (add_friend_effect w a b ua ub Hne Ha Hb Hnot)
    as (w1 & Hrun & Ha1 & Hb1 & _).
  eexists w1, _, _.
  split; [ exact Hrun | ]. split; [ exact Ha1 | ]. split; [ exact Hb1 | ].
  cbn [friends activity_feed]. repeat split.
  - apply (add_friend_of_friend _ _ _ _ Ha1). cbn [friends]. set_solver.
  - apply (add_friend_of_friend _ _ _ _ Hb1). cbn [friends]. set_solver.
Qed.

(** ** Relations between the state before and after a call

    A relation on states that every primitive step respects is respected by
    every method built from them, whatever the outcome of the call.  The
    section is instantiated below with the frame of the card field and with
    the validity of stored cards. *)

Section preserves.
Variable R : World -> World -> Prop.
Variable ok_update : (User -> User) -> Prop.
Variable ok_alloc : User -> Prop.

Hypothesis R_refl : forall w, R w w.
Hypothesis R_trans : forall w1 w2 w3, R w1 w2 -> R w2 w3 -> R w1 w3.
Hypothesis R_update : forall w r f u,
  ok_update f -> heap w !! r = Some u -> R w (with_heap (insert r (f u)) w).
Hypothesis R_alloc : forall w u,
  ok_alloc u -> R w (with_heap (insert (fresh (dom (heap w))) u) w).
Hypothesis R_heap_only : forall w us d, R w (mkWorld (heap w) us (uuid4 w) d).

Hypothesis ok_set_balance : forall b, ok_update (set_balance b).
Hypothesis ok_friends_add : forall r, ok_update (friends_add r).
Hypothesis ok_activity_feed_append : forall s, ok_update (activity_feed_append s).
Hypothesis ok_new_user : forall name, ok_alloc (mkUser name 0%float None ∅ []).

Definition preserves {A} (m : M A) : Prop := forall w, R w (m w).2.

Lemma preserves_ret {A} (a : A) : preserves (ret a).
Proof. intros w. apply R_refl. Qed.

Lemma preserves_raise {A} e : preserves (@raise A e).
Proof. intros w. apply R_refl. Qed.

Lemma preserves_load r : preserves (load r).
Proof. intros w. unfold load. destruct (heap w !! r); apply R_refl. Qed.

Lemma preserves_bind {A B} (m : M A) (k : A -> M B) :
  preserves m -> (forall a, preserves (k a)) -> preserves (bind m k).
Proof.
  intros Hm Hk w. unfold bind. specialize (Hm w).
  destruct (m w) as [[a | e | ] w1]; cbn [snd] in *; try assumption.
  eapply R_trans; [ exact Hm | apply Hk ].
Qed.

Lemma preserves_update r f : ok_update f -> preserves (update r f).
Proof.
  intros Hf w. unfold update. destruct (heap w !! r) as [u | ] eqn:Hr; cbn [snd].
  - now apply R_update.
  - apply R_refl.
Qed.

Lemma preserves_alloc u : ok_alloc u -> preserves (alloc u).
Proof. intros Hu w. now apply R_alloc. Qed.

Lemma preserves_Payment_init a s t n : preserves (Payment_init a s t n).
Proof. intros w. apply R_heap_only. Qed.

Ltac preserves_steps :=
  repeat first
    [ apply preserves_bind; [ | intros ? ]
    | apply preserves_ret
    | apply preserves_raise
    | apply preserves_load
    | apply preserves_Payment_init
    | apply preserves_update;
      first [ apply ok_set_balance | apply ok_friends_add
            | apply ok_activity_feed_append ]
    | assumption ].

Lemma preserves_Payment_str p : preserves (Payment_str p).
Proof. unfold Payment_str. preserves_steps. Qed.

Lemma preserves_add_to_balance r a : preserves (add_to_balance r a).
Proof. unfold add_to_balance. preserves_steps. Qed.

Lemma preserves_retrieve_feed r : preserves (retrieve_feed r).
Proof. unfold retrieve_feed. preserves_steps. Qed.

Lemma preserves_add_friend s n : preserves (add_friend s n).
Proof.
  unfold add_friend. preserves_steps.
  destruct (decide (n ∈ friends a)); preserves_steps.
Qed.

Lemma preserves_pay_with_balance s t a n : preserves (pay_with_balance s t a n).
Proof.
  unfold pay_with_balance. pose proof preserves_Payment_str.
  pose proof preserves_add_to_balance. preserves_steps.
Qed.

Lemma preserves_pay_with_card s t a n : preserves (pay_with_card s t a n).
Proof.
  unfold pay_with_card, _charge_credit_card. pose proof preserves_Payment_str.
  pose proof (preserves_add_to_balance t a).
  preserves_steps. destruct (decide (t ≠ s)); preserves_steps.
Qed.

Lemma preserves_pay s t a n : preserves (pay s t a n).
Proof.
  unfold pay. preserves_steps.
  destruct (decide (username a0 = username a1)); preserves_steps.
  destruct (a <=? 0)%float; preserves_steps.
  destruct (a <=? balance a0)%float; [ apply preserves_pay_with_balance | ].
  destruct (truthy (credit_card_number a0));
    [ apply preserves_pay_with_card | preserves_steps ].
Qed.

Lemma preserves_User_init name : preserves (User_init name).
Proof.
  unfold User_init. destruct (_is_valid_username name).
  - apply preserves_alloc, ok_new_user.
  - apply preserves_raise.
Qed.
End preserves.

(** ** The card field *)

(** Outside the set [X] of references, every user of [w] is still there in
    [w'] with the same card field. *)
Definition card_frame (X : gset nat) (w w' : World) : Prop :=
  forall r u, r ∉ X -> heap w !! r = Some u ->
    exists u', heap w' !! r = Some u' /\ credit_card_number u' = credit_card_number u.

Definition keeps_card (f : User -> User) : Prop :=
  forall u, credit_card_number (f u) = credit_card_number u.

Section card_frame.
Variable X : gset nat.

Lemma card_frame_refl w : card_frame X w w.
Proof. intros r u _ H. eauto. Qed.

Lemma card_frame_trans w1 w2 w3 :
  card_frame X w1 w2 -> card_frame X w2 w3 -> card_frame X w1 w3.
Proof.
  intros H12 H23 r u Hr H.
  destruct (H12 r u Hr H) as (u2 & H2 & E2).
  destruct (H23 r u2 Hr H2) as (u3 & H3 & E3).
  exists u3. split; [ exact H3 | congruence ].
Qed.

Lemma card_frame_update w r f u :
  keeps_card f -> heap w !! r = Some u ->
  card_frame X w (with_heap (insert r (f u)) w).
Proof.
  intros Hf Hr r' u' _ H. cbn [heap with_heap].
  destruct (decide (r = r')) as [<- | Hne].
  - rewrite lookup_insert_eq. exists (f u). split; [ reflexivity | ].
    rewrite Hr in H. injection H as <-. apply Hf.
  - rewrite lookup_insert_ne by exact Hne. eauto.
Qed.

Lemma card_frame_alloc w u :
  True -> card_frame X w (with_heap (insert (fresh (dom (heap w))) u) w).
Proof.
  intros _ r u' _ H. cbn [heap with_heap].
  rewrite lookup_insert_ne; [ eauto | ].
  intros <-. pose proof (is_fresh (dom (heap w))) as Hfresh.
  apply not_elem_of_dom in Hfresh. congruence.
Qed.

Lemma card_frame_heap_only w us d :
  card_frame X w (mkWorld (heap w) us (uuid4 w) d).
Proof. intros r u _ H. cbn [heap]. eauto. Qed.
End card_frame.

(** The methods that do not assign the card field. *)
Definition card_frame_of {A} (X : gset nat) (m : M A) : Prop :=
  preserves (card_frame X) m.

Ltac card_frame_instance lem :=
  unfold card_frame_of; eapply lem;
  try first
    [ apply card_frame_refl | apply card_frame_trans | apply card_frame_update
    | apply card_frame_alloc | apply card_frame_heap_only ];
  try (intros; intro; reflexivity);
  try (intros; exact I).

Lemma card_frame_add_friend X s n : card_frame_of X (add_friend s n).
Proof. card_frame_instance preserves_add_friend. Qed.

Lemma card_frame_add_to_balance X r a : card_frame_of X (add_to_balance r a).
Proof. card_frame_instance preserves_add_to_balance. Qed.

Lemma card_frame_retrieve_feed X r : card_frame_of X (retrieve_feed r).
Proof. card_frame_instance preserves_retrieve_feed. Qed.

Lemma card_frame_pay_with_balance X s t a n : card_frame_of X (pay_with_balance s t a n).
Proof. card_frame_instance preserves_pay_with_balance. Qed.

Lemma card_frame_pay_with_card X s t a n : card_frame_of X (pay_with_card s t a n).
Proof. card_frame_instance preserves_pay_with_card. Qed.

Lemma card_frame_pay X s t a n : card_frame_of X (pay s t a n).
Proof. card_frame_instance preserves_pay. Qed.

Lemma card_frame_User_init X name : card_frame_of X (User_init name).
Proof. card_frame_instance preserves_User_init. Qed.

Lemma card_frame_bind {A B} X (m : M A) (k : A -> M B) :
  card_frame_of X m -> (forall a, card_frame_of X (k a)) -> card_frame_of X (bind m k).
Proof. apply preserves_bind, card_frame_trans. Qed.

Lemma card_frame_ret {A} X (a : A) : card_frame_of X (ret a).
Proof. apply preserves_ret, card_frame_refl. Qed.

(** [add_credit_card] on a user whose card is set: the first test raises,
    before the number is looked at. *)
Lemma add_credit_card_twice w self u c number :
  heap w !! self = Some u ->
  credit_card_number u = Some c ->
  add_credit_card self number w = (Raise DuplicateCardError, w).
Proof.
  intros Hs Hc. unfold add_credit_card.
  rewrite (bind_ok _ _ _ _ _ (load_some _ _ _ Hs)). now rewrite Hc.
Qed.

(** [add_credit_card] assigns the card field of [self] only. *)
Lemma card_frame_add_credit_card self number :
  card_frame_of {[ self ]} (add_credit_card self number).
Proof.
  intros w. unfold add_credit_card, bind, load, update, raise.
  destruct (heap w !! self) as [u | ] eqn:Hs; cbn [snd];
    [ | apply card_frame_refl ].
  destruct (credit_card_number u); [ apply card_frame_refl | ].
  destruct (_is_valid_credit_card number); [ | apply card_frame_refl ].
  rewrite Hs. cbn [snd]. intros r u' Hr Hu'. cbn [heap with_heap].
  rewrite lookup_insert_ne by set_solver. eauto.
Qed.

(** A card that is set stays what it is. *)
Definition set_cards_kept (w w' : World) : Prop :=
  forall r u c, heap w !! r = Some u -> credit_card_number u = Some c ->
    exists u', heap w' !! r = Some u' /\ credit_card_number u' = Some c.

Lemma card_frame_set_cards_kept w w' : card_frame ∅ w w' -> set_cards_kept w w'.
Proof.
  intros H r u c Hu Hc. destruct (H r u) as (u' & Hu' & E); [ set_solver | exact Hu | ].
  exists u'. split; [ exact Hu' | congruence ].
Qed.

Lemma set_cards_kept_add_credit_card self number w :
  set_cards_kept w (add_credit_card self number w).2.
Proof.
  intros r u c Hu Hc. destruct (decide (r = self)) as [-> | Hne].
  - rewrite (add_credit_card_twice _ _ _ _ number Hu Hc). cbn [snd]. eauto.
  - destruct (card_frame_add_credit_card self number w r u) as (u' & Hu' & E);
      [ set_solver | exact Hu | ].
    exists u'. split; [ exact Hu' | congruence ].
Qed.

(** [create_user] leaves the users there are as they were: the card it
    attaches goes to the object it has just made. *)
Lemma card_frame_create_user name b c w :
  card_frame ∅ w (create_user name b c w).2.
Proof.
  unfold create_user. destruct (users w !! name); [ apply card_frame_refl | ].
  unfold User_init. destruct (_is_valid_username name); [ | apply card_frame_refl ].
  set (r := fresh (dom (heap w))).
  assert (Hfresh : heap w !! r = None).
  { apply not_elem_of_dom, is_fresh. }
  assert (Hframe : card_frame {[ r ]} w
            ((let! user := alloc (mkUser name 0%float None ∅ []) in
              let! _ := add_to_balance user b in
              let! _ := (match c with
                         | Some number =>
                             if truthy c then add_credit_card user number else ret tt
                         | None => ret tt
                         end) in
              let! _ := (fun w' => (Ok tt, with_users (insert name user) w')) in
              ret user) w).2).
  { unfold bind at 1. unfold alloc. fold r.
    eapply card_frame_trans; [ now apply card_frame_alloc | ].
    apply card_frame_bind; [ apply card_frame_add_to_balance | intros _ ].
    apply card_frame_bind; [ | intros _ ].
    { destruct c as [number | ]; [ | apply card_frame_ret ].
      destruct (truthy (Some number));
        [ apply card_frame_add_credit_card | apply card_frame_ret ]. }
    apply card_frame_bind; [ | intros _; apply card_frame_ret ].
    intros w1. apply card_frame_heap_only. }
  intros r' u _ Hu. apply Hframe; [ | exact Hu ].
  intros Hin. apply elem_of_singleton in Hin. subst r'. congruence.
Qed.

(** The calls a client can make. *)
Inductive operation : Type :=
| Call_User (username : string)
| Call_retrieve_feed (self : ref)
| Call_add_friend (self new_friend : ref)
| Call_add_to_balance (self : ref) (amount : float)
| Call_add_credit_card (self : ref) (number : string)
| Call_pay (self target : ref) (amount : float) (note : string)
| Call_pay_with_balance (self target : ref) (amount : float) (note : string)
| Call_pay_with_card (self target : ref) (amount : float) (note : string)
| Call_create_user (username : string) (balance : float) (card : option string).

(** The state a call leaves, whether it returns or raises. *)
Definition state_after (o : operation) (w : World) : World :=
  match o with
  | Call_User name => (User_init name w).2
  | Call_retrieve_feed self => (retrieve_feed self w).2
  | Call_add_friend self new_friend => (add_friend self new_friend w).2
  | Call_add_to_balance self amount => (add_to_balance self amount w).2
  | Call_add_credit_card self number => (add_credit_card self number w).2
  | Call_pay self target amount note => (pay self target amount note w).2
  | Call_pay_with_balance self target amount note =>
      (pay_with_balance self target amount note w).2
  | Call_pay_with_card self target amount note =>
      (pay_with_card self target amount note w).2
  | Call_create_user name b c => (create_user name b c w).2
  end.

Definition state_after_all (os : list operation) (w : World) : World :=
  fold_left (fun w o => state_after o w) os w.

Definition is_add_credit_card (o : operation) : bool :=
  match o with
  | Call_add_credit_card _ _ => true
  | _ => false
  end.

Lemma card_frame_state_after o w :
  is_add_credit_card o = false -> card_frame ∅ w (state_after o w).
Proof.
  destruct o; cbn [is_add_credit_card state_after]; intros H; try discriminate H.
  - apply card_frame_User_init.
  - apply card_frame_retrieve_feed.
  - apply card_frame_add_friend.
  - apply card_frame_add_to_balance.
  - apply card_frame_pay.
  - apply card_frame_pay_with_balance.
  - apply card_frame_pay_with_card.
  - apply card_frame_create_user.
Qed.

Lemma set_cards_kept_state_after o w : set_cards_kept w (state_after o w).
Proof.
  destruct (is_add_credit_card o) eqn:Ho.
  - destruct o; try discriminate Ho. apply set_cards_kept_add_credit_card.
  - now apply card_frame_set_cards_kept, card_frame_state_after.
Qed.

Lemma set_cards_kept_state_after_all os w : set_cards_kept w (state_after_all os w).
Proof.
  revert w. induction os as [ | o os IH]; intros w r u c Hu Hc.
  - cbn. eauto.
  - cbn [state_after_all fold_left].
    destruct (set_cards_kept_state_after o w r u c Hu Hc) as (u1 & Hu1 & Hc1).
    exact (IH _ r u1 c Hu1 Hc1).
Qed.

(** C8: for a user whose card is set, [add_credit_card] raises
    DuplicateCardError whatever the number (valid or not) and leaves the
    state as it was; no call other than [add_credit_card] changes the card
    field of a user; and after any sequence of calls the card is the one
    that was set first. *)
Theorem credit_card_set_once w self u c :
  heap w !! self = Some u ->
  credit_card_number u = Some c ->
  (forall number, add_credit_card self number w = (Raise DuplicateCardError, w))
  /\ (forall o r v, is_add_credit_card o = false -> heap w !! r = Some v ->
        exists v', heap (state_after o w) !! r = Some v'
                   /\ credit_card_number v' = credit_card_number v)
  /\ (forall os, exists u', heap (state_after_all os w) !! self = Some u'
                            /\ credit_card_number u' = Some c).
Proof.
  intros Hs Hc. split; [ | split ].
  - intros number. exact (add_credit_card_twice _ _ _ _ number Hs Hc).
  - intros o r v Ho Hv. apply (card_frame_state_after o w Ho); [ set_solver | exact Hv ].
  - intros os. exact (set_cards_kept_state_after_all os w self u c Hs Hc).
Qed.

(** ** The registry *)

(** C10: when [create_user] raises, the [users] dict is the one before the
    call, for each of the three causes: a username that is taken, a username
    the pattern rejects, a card number the allow-list rejects.  The user
    whose card could not be attached is in no entry of the dict, and the
    users there were are untouched. *)
Theorem create_user_atomic name b c w e w' :
  create_user name b c w = (Raise e, w') ->
  users w' = users w
  /\ (e = DuplicateUsernameError \/ e = InvalidUsernameError
      \/ e = InvalidCreditCardError)
  /\ (forall r u, heap w !! r = Some u -> heap w' !! r = Some u).
Proof.
  unfold create_user.
  destruct (users w !! name) as [taken | ] eqn:Hname.
  { intros H. injection H as <- <-. auto. }
  unfold User_init. destruct (_is_valid_username name).
  2:{ unfold bind, raise. intros H. injection H as <- <-. auto. }
  assert (Hfresh : forall r u, heap w !! r = Some u -> r <> fresh (dom (heap w))).
  { intros r u Hu ->. pose proof (is_fresh (dom (heap w))) as Hf.
    apply not_elem_of_dom in Hf. congruence. }
  unfold alloc. exec.
  destruct c as [number | ]; [ | exec; discriminate ].
  destruct (truthy (Some number)); [ | exec; discriminate ].
  unfold add_credit_card. exec. user_fields.
  destruct (_is_valid_credit_card number); exec; [ discriminate | ].
  intros H. injection H as <- <-. cbn [users heap].
  split; [ reflexivity | ]. split; [ auto | ].
  intros r u Hu. rewrite !lookup_insert_ne by (symmetry; eauto). exact Hu.
Qed.

(** On success the new user, and nothing else, is added under its name. *)
Lemma create_user_registers name b c w r w' :
  create_user name b c w = (Ok r, w') ->
  users w !! name = None /\ users w' = <[ name := r ]> (users w).
Proof.
  unfold create_user.
  destruct (users w !! name) as [taken | ] eqn:Hname; [ discriminate | ].
  unfold User_init. destruct (_is_valid_username name);
    [ | unfold bind, raise; discriminate ].
  unfold alloc. exec.
  destruct c as [number | ].
  - destruct (truthy (Some number)).
    + unfold add_credit_card. exec. user_fields.
      destruct (_is_valid_credit_card number); exec; [ | discriminate ].
      intros H. injection H as <- <-. auto.
    + exec. intros H. injection H as <- <-. auto.
  - exec. intros H. injection H as <- <-. auto.
Qed.

(** ** Usernames *)

(** What the backtracking match accepts: a run of [lo] to [hi] characters of
    the class, followed by a position where [$] holds. *)
Lemma match_repeat_dollar_spec cls lo hi s :
  match_repeat_dollar cls lo hi s = true <->
  exists body tail,
    s = body ++ tail /\ at_dollar tail = true
    /\ (lo <= String.length body <= hi)%nat
    /\ forallb cls (list_ascii_of_string body) = true.
Proof.
  revert lo s. induction hi as [ | hi IH]; intros lo s.
  - cbn [match_repeat_dollar]. rewrite andb_true_iff, Nat.eqb_eq. split.
    + intros [-> Hd]. exists "", s. repeat split; auto.
    + intros (body & tail & -> & Hd & [Hlo Hhi] & _).
      destruct body; cbn in Hhi; [ | lia ]. cbn in Hlo. split; [ lia | exact Hd ].
  - cbn [match_repeat_dollar].
    rewrite orb_true_iff, andb_true_iff, Nat.eqb_eq. split.
    + intros [Hstep | [-> Hd]].
      * destruct s as [ | c s']; [ discriminate | ].
        apply andb_true_iff in Hstep as [Hc Hrest].
        apply IH in Hrest as (body & tail & -> & Hd & [Hlo Hhi] & Hall).
        exists (String c body), tail.
        split; [ reflexivity | ]. split; [ exact Hd | ].
        split; [ cbn [String.length]; lia | ].
        cbn [list_ascii_of_string forallb]. now rewrite Hc, Hall.
      * exists "", s. cbn. repeat split; auto; lia.
    + intros (body & tail & -> & Hd & [Hlo Hhi] & Hall).
      destruct body as [ | c body].
      * right. cbn in Hlo. split; [ lia | exact Hd ].
      * left. cbn [list_ascii_of_string forallb String.length] in Hall, Hlo, Hhi.
        apply andb_true_iff in Hall as [Hc Hall].
        change (String c body ++ tail) with (String c (body ++ tail)).
        cbv beta iota. rewrite Hc. cbn [andb].
        apply IH. exists body, tail. repeat split; auto; lia.
Qed.

Lemma spec_class_in_username_class c :
  spec_username_class c = true -> username_class c = true.
Proof.
  unfold spec_username_class, username_class.
  rewrite !orb_true_iff. intuition auto.
Qed.

Lemma string_app_empty (s : string) : s ++ "" = s.
Proof.
  induction s as [ | c s IH]; [ reflexivity | ].
  change (String c (s ++ "") = String c s). now f_equal.
Qed.

(** Every string of the pattern the specification states is accepted. *)
Lemma spec_username_pattern_accepted s :
  spec_username_pattern s = true -> _is_valid_username s = true.
Proof.
  unfold spec_username_pattern, _is_valid_username.
  rewrite !andb_true_iff, !Nat.leb_le. intros [[Hlo Hhi] Hall].
  apply match_repeat_dollar_spec. exists s, "".
  rewrite string_app_empty. repeat split; auto.
  rewrite forallb_forall in *. intros c Hc.
  now apply spec_class_in_username_class, Hall.
Qed.

(** C5: the pattern in the code has a doubled backslash inside the class of
    a raw string, so the class has the backslash too: the five characters
    [ab\cd] are accepted, though the backslash is outside the class of
    letters, digits, underscore and hyphen. *)
Theorem is_valid_username_accepts_backslash :
  _is_valid_username "ab\cd" = true
  /\ String.length "ab\cd" = 5%nat
  /\ spec_username_pattern "ab\cd" = false.
Proof. repeat split. Qed.

(** [$] also holds before a final newline: a valid name followed by a
    newline is accepted. *)
Lemma is_valid_username_accepts_final_newline :
  _is_valid_username (String.append "Bobby" (String (ascii_of_nat 10) EmptyString)) = true
  /\ spec_username_pattern (String.append "Bobby" (String (ascii_of_nat 10) EmptyString))
     = false.
Proof. repeat split. Qed.

(** * The test fixture, and the properties on it *)

(** Decimal literals denote the nearest binary64 value, as in Python. *)
#[local] Set Warnings "-inexact-float".

Definition uuid_of (n : nat) : string :=
  "6f1c2b0a-0000-4000-8000-" ++ decimal (Z.of_nat n).

Definition empty_world : World := mkWorld ∅ ∅ uuid_of 0.

Definition bobby : User := mkUser "Bobby" 5 (Some "4111111111111111") ∅ [].
Definition carol : User := mkUser "Carol" 10 (Some "4242424242424242") ∅ [].

(** The state [TestMiniVenmo.setUp] builds. *)
Definition setUp : World :=
  mkWorld (<[ 1%nat := carol ]> (<[ 0%nat := bobby ]> ∅))
          (<[ "Carol" := 1%nat ]> (<[ "Bobby" := 0%nat ]> ∅))
          uuid_of 0.

Lemma setUp_created :
  (let! b := create_user "Bobby" 5 (Some "4111111111111111") in
   let! c := create_user "Carol" 10 (Some "4242424242424242") in
   ret (b, c)) empty_world
  = (Ok (0%nat, 1%nat), setUp).
Proof. vm_compute. reflexivity. Qed.

(** [:.2f] on values whose rendering Python documents: ties of the exact
    binary value go to the even neighbour, and 2.675 is below the tie. *)
Lemma format_2f_examples :
  format_2f 5 = "5.00" /\ format_2f 0.125 = "0.12" /\ format_2f 0.375 = "0.38"
  /\ format_2f 2.675 = "2.67" /\ format_2f 1234.5 = "1234.50"
  /\ format_2f (-0.001) = "-0.00" /\ format_2f 1e22 = "10000000000000000000000.00".
Proof. repeat split. Qed.

(** [test_create_user_that_already_exists] and
    [test_create_user_with_invalid_username]. *)
Lemma test_create_user_raises :
  create_user "Bobby" 10 None setUp = (Raise DuplicateUsernameError, setUp)
  /\ create_user "Bobby$" 10 None setUp = (Raise InvalidUsernameError, setUp).
Proof. split; vm_compute; reflexivity. Qed.

(** [test_payment_with_balance], [test_payment_with_card]. *)
Lemma test_payment_with_balance :
  exists p w b c,
    pay 0 1 5 "Coffee" setUp = (Ok p, w)
    /\ heap w !! 0%nat = Some b /\ heap w !! 1%nat = Some c
    /\ balance b = 0%float /\ balance c = 15%float.
Proof. eexists _, _, _, _. vm_compute. repeat split. Qed.

Lemma test_payment_with_card :
  exists p w b,
    pay 1 0 15 "Lunch" setUp = (Ok p, w)
    /\ heap w !! 0%nat = Some b /\ balance b = 20%float.
Proof. eexists _, _, _. vm_compute. repeat split. Qed.

(** [test_feed]: the second payment finds 15.00 on Carol's balance and takes
    the balance path. *)
Lemma test_feed :
  (let! _ := pay 0 1 5 "Coffee" in
   let! _ := pay 1 0 15 "Lunch" in
   retrieve_feed 0) setUp
  = (Ok ["Bobby paid Carol $5.00 for Coffee"; "Carol paid Bobby $15.00 for Lunch"],
     ((let! _ := pay 0 1 5 "Coffee" in pay 1 0 15 "Lunch") setUp).2).
Proof. vm_compute. reflexivity. Qed.

(** Bobby pays Carol 5.00 from a balance of 5.00. *)
Lemma pay_funding_source_witness :
  pay 0 1 5 "Coffee" setUp = pay_with_balance 0 1 5 "Coffee" setUp.
Proof.
  apply (pay_funding_source setUp 0 1 bobby carol 5 "Coffee").
  - reflexivity.
  - reflexivity.
  - vm_compute. discriminate.
  - reflexivity.
  - reflexivity.
Defined.

Lemma pay_balance_transfer_witness :
  exists p w' u' t',
    pay 0 1 5 "Coffee" setUp = (Ok p, w')
    /\ heap w' !! 0%nat = Some u'
    /\ heap w' !! 1%nat = Some t'
    /\ balance u' = (5 - 5)%float
    /\ balance t' = (10 + 5)%float
    /\ (forall r, r <> 0%nat -> r <> 1%nat -> heap w' !! r = heap setUp !! r).
Proof.
  apply (pay_balance_transfer setUp 0 1 bobby carol 5 "Coffee").
  - reflexivity.
  - reflexivity.
  - vm_compute. discriminate.
  - reflexivity.
  - reflexivity.
Defined.

(** Carol pays Bobby 15.00 with 10.00 on her balance. *)
Lemma pay_card_transfer_witness :
  exists p w' u' t',
    pay 1 0 15 "Lunch" setUp = (Ok p, w')
    /\ heap w' !! 1%nat = Some u'
    /\ heap w' !! 0%nat = Some t'
    /\ balance u' = 10%float
    /\ balance t' = (5 + 15)%float
    /\ (forall r, r <> 1%nat -> r <> 0%nat -> heap w' !! r = heap setUp !! r).
Proof.
  apply (pay_card_transfer setUp 1 0 carol bobby 15 "Lunch").
  - reflexivity.
  - reflexivity.
  - vm_compute. discriminate.
  - reflexivity.
  - reflexivity.
  - reflexivity.
Defined.

(** A payment of 0.00 raises and changes nothing. *)
Lemma pay_raise_no_mutation_witness :
  setUp = setUp
  /\ (InvalidAmountError = SelfPaymentError \/ InvalidAmountError = InvalidAmountError
      \/ InvalidAmountError = InsufficientFundsError).
Proof.
  apply (pay_raise_no_mutation setUp 0 1 0 "nothing" InvalidAmountError setUp).
  vm_compute. reflexivity.
Defined.

Lemma pay_self_fails_witness :
  pay 0 0 (-3) "to myself" setUp = (Raise SelfPaymentError, setUp).
Proof.
  apply (pay_self_fails setUp 0 bobby (-3) "to myself"). reflexivity.
Defined.

Lemma add_friend_idempotent_witness :
  exists w1 ua1 ub1,
    add_friend 0 1 setUp = (Ok tt, w1)
    /\ heap w1 !! 0%nat = Some ua1 /\ heap w1 !! 1%nat = Some ub1
    /\ friends ua1 = {[ 1%nat ]} ∪ friends bobby
    /\ friends ub1 = {[ 0%nat ]} ∪ friends carol
    /\ activity_feed ua1 = (activity_feed bobby ++ [friends_message bobby carol])%list
    /\ activity_feed ub1 = (activity_feed carol ++ [friends_message bobby carol])%list
    /\ add_friend 0 1 w1 = (Ok tt, w1)
    /\ add_friend 1 0 w1 = (Ok tt, w1).
Proof.
  apply (add_friend_idempotent setUp 0 1 bobby carol).
  - lia.
  - reflexivity.
  - reflexivity.
  - unfold bobby. cbn [friends]. apply not_elem_of_empty.
Defined.

Lemma credit_card_set_once_witness :
  (forall number, add_credit_card 0 number setUp = (Raise DuplicateCardError, setUp))
  /\ (forall o r v, is_add_credit_card o = false -> heap setUp !! r = Some v ->
        exists v', heap (state_after o setUp) !! r = Some v'
                   /\ credit_card_number v' = credit_card_number v)
  /\ (forall os, exists u', heap (state_after_all os setUp) !! 0%nat = Some u'
                            /\ credit_card_number u' = Some "4111111111111111").
Proof.
  apply (credit_card_set_once setUp 0 bobby "4111111111111111").
  - reflexivity.
  - reflexivity.
Defined.

Lemma pay_appends_message_witness :
  (exists u' t',
     heap (pay 1 0 15 "Lunch" setUp).2 !! 1%nat = Some u'
     /\ heap (pay 1 0 15 "Lunch" setUp).2 !! 0%nat = Some t'
     /\ activity_feed u' = ["Carol paid Bobby $15.00 for Lunch"]
     /\ activity_feed t' = ["Carol paid Bobby $15.00 for Lunch"])
  /\ retrieve_feed 1 (pay 1 0 15 "Lunch" setUp).2
     = (Ok ["Carol paid Bobby $15.00 for Lunch"], (pay 1 0 15 "Lunch" setUp).2)
  /\ (isfinite 15 = true -> two_decimals (format_2f 15)).
Proof.
  apply (pay_appends_message setUp 1 0 carol bobby 15 "Lunch"
           (mkPayment (uuid_of 0) 15 1 0 "Lunch") (pay 1 0 15 "Lunch" setUp).2).
  - vm_compute. reflexivity.
  - reflexivity.
  - reflexivity.
Defined.

(** A user whose card number is refused is made, and not registered. *)
Lemma create_user_atomic_witness :
  users (create_user "Dave_1" 1 (Some "1234") setUp).2 = users setUp
  /\ (InvalidCreditCardError = DuplicateUsernameError
      \/ InvalidCreditCardError = InvalidUsernameError
      \/ InvalidCreditCardError = InvalidCreditCardError)
  /\ (forall r u, heap setUp !! r = Some u ->
        heap (create_user "Dave_1" 1 (Some "1234") setUp).2 !! r = Some u).
Proof.
  apply (create_user_atomic "Dave_1" 1 (Some "1234") setUp InvalidCreditCardError).
  vm_compute. reflexivity.
Defined.

(** Two accounts without a card, with 0.3 and 0.7. *)
Definition alice : User := mkUser "Alice" 0.3 None ∅ [].
Definition bruno : User := mkUser "Bruno" 0.7 None ∅ [].

Definition two_accounts : World :=
  mkWorld (<[ 1%nat := bruno ]> (<[ 0%nat := alice ]> ∅))
          (<[ "Bruno" := 1%nat ]> (<[ "Alice" := 0%nat ]> ∅))
          uuid_of 0.

Lemma two_accounts_created :
  (let! a := create_user "Alice" 0.3 None in
   let! b := create_user "Bruno" 0.7 None in
   ret (a, b)) empty_world
  = (Ok (0%nat, 1%nat), two_accounts).
Proof. vm_compute. reflexivity. Qed.

(** A payment of 0.1 from a balance of 0.3 to a balance of 0.7 takes the
    balance path; both updates round, and the sum of the pair after the
    payment is not the sum before it. *)
Lemma balance_sum_not_conserved :
  exists p w' a' b',
    pay 0 1 0.1 "rent" two_accounts = pay_with_balance 0 1 0.1 "rent" two_accounts
    /\ pay 0 1 0.1 "rent" two_accounts = (Ok p, w')
    /\ heap w' !! 0%nat = Some a' /\ heap w' !! 1%nat = Some b'
    /\ balance a' = 0.19999999999999998%float
    /\ balance b' = 0.7999999999999999%float
    /\ (balance a' + balance b')%float = 0.9999999999999999%float
    /\ (balance alice + balance bruno)%float = 1%float
    /\ (balance a' + balance b' =? balance alice + balance bruno)%float = false.
Proof.
  eexists _, _, _, _.
  split; [ vm_compute; reflexivity | ].
  split; [ vm_compute; reflexivity | ].
  split; [ vm_compute; reflexivity | ].
  split; [ vm_compute; reflexivity | ].
  repeat split; vm_compute; reflexivity.
Qed.

(** Carol pays Bobby an infinite amount from her card: the feed entry reads
    [$inf], with no decimal digits. *)
Lemma pay_infinity_not_two_decimals :
  exists p w' c',
    pay 1 0 infinity "Lunch" setUp = (Ok p, w')
    /\ heap w' !! 1%nat = Some c'
    /\ activity_feed c' = ["Carol paid Bobby $inf for Lunch"]
    /\ ~ two_decimals (format_2f (amount p)).
Proof.
  eexists _, _, _. split; [ vm_compute; reflexivity | ].
  split; [ vm_compute; reflexivity | ].
  split; [ reflexivity | ].
  exact not_two_decimals_inf.
Qed.


(** ** Stored cards are valid in every reachable state *)

Definition cards_valid (w : World) : Prop :=
  forall r u, heap w !! r = Some u -> card_valid u.

Definition cards_valid_kept (w w' : World) : Prop := cards_valid w -> cards_valid w'.

Definition keeps_card_valid (f : User -> User) : Prop :=
  forall u, card_valid u -> card_valid (f u).

Lemma cards_valid_kept_refl w : cards_valid_kept w w.
Proof. intros H. exact H. Qed.

Lemma cards_valid_kept_trans w1 w2 w3 :
  cards_valid_kept w1 w2 -> cards_valid_kept w2 w3 -> cards_valid_kept w1 w3.
Proof. unfold cards_valid_kept. auto. Qed.

Lemma cards_valid_insert w r v :
  card_valid v -> cards_valid_kept w (with_heap (insert r v) w).
Proof.
  intros Hv Hw r' u'. cbn [heap with_heap].
  destruct (decide (r = r')) as [<- | Hne].
  - rewrite lookup_insert_eq. intros H. injection H as <-. exact Hv.
  - rewrite lookup_insert_ne by exact Hne. apply Hw.
Qed.

Lemma cards_valid_kept_update w r f u :
  keeps_card_valid f -> heap w !! r = Some u ->
  cards_valid_kept w (with_heap (insert r (f u)) w).
Proof.
  intros Hf Hr Hw. apply cards_valid_insert; [ | exact Hw ].
  apply Hf. exact (Hw _ _ Hr).
Qed.

Lemma cards_valid_kept_alloc w u :
  card_valid u -> cards_valid_kept w (with_heap (insert (fresh (dom (heap w))) u) w).
Proof. apply cards_valid_insert. Qed.

Lemma cards_valid_kept_heap_only w us d :
  cards_valid_kept w (mkWorld (heap w) us (uuid4 w) d).
Proof. intros H. exact H. Qed.

Ltac cards_valid_instance lem :=
  eapply lem;
  try first
    [ apply cards_valid_kept_refl | apply cards_valid_kept_trans
    | apply cards_valid_kept_update | apply cards_valid_kept_alloc
    | apply cards_valid_kept_heap_only ];
  try (intros; intros ? ?; assumption);
  try (intros; exact I).

Lemma cards_valid_add_credit_card self number :
  preserves cards_valid_kept (add_credit_card self number).
Proof.
  intros w. unfold add_credit_card, bind, load, update, raise.
  destruct (heap w !! self) as [u | ] eqn:Hs; cbn [snd];
    [ | apply cards_valid_kept_refl ].
  destruct (credit_card_number u); [ apply cards_valid_kept_refl | ].
  destruct (_is_valid_credit_card number) eqn:Hvalid;
    [ | apply cards_valid_kept_refl ].
  rewrite Hs. cbn [snd]. apply cards_valid_insert. exact Hvalid.
Qed.

Lemma cards_valid_create_user name b c :
  preserves cards_valid_kept (create_user name b c).
Proof.
  intros w. unfold create_user.
  destruct (users w !! name); [ apply cards_valid_kept_refl | ].
  revert w.
  change (preserves cards_valid_kept
    (let! user := User_init name in
     let! _ := add_to_balance user b in
     let! _ := (match c with
                | Some number => if truthy c then add_credit_card user number else ret tt
                | None => ret tt
                end) in
     let! _ := (fun w' => (Ok tt, with_users (insert name user) w')) in
     ret user)).
  apply preserves_bind; [ apply cards_valid_kept_trans | | intros user ].
  { cards_valid_instance preserves_User_init. }
  apply preserves_bind; [ apply cards_valid_kept_trans | | intros _ ].
  { cards_valid_instance preserves_add_to_balance. }
  apply preserves_bind; [ apply cards_valid_kept_trans | | intros _ ].
  { destruct c as [number | ]; [ | apply preserves_ret, cards_valid_kept_refl ].
    destruct (truthy (Some number));
      [ apply cards_valid_add_credit_card | apply preserves_ret, cards_valid_kept_refl ]. }
  apply preserves_bind; [ apply cards_valid_kept_trans | | intros _ ].
  { intros w. apply cards_valid_kept_heap_only. }
  apply preserves_ret, cards_valid_kept_refl.
Qed.

Lemma cards_valid_state_after o w : cards_valid w -> cards_valid (state_after o w).
Proof.
  destruct o; cbn [state_after].
  - cards_valid_instance preserves_User_init.
  - cards_valid_instance preserves_retrieve_feed.
  - cards_valid_instance preserves_add_friend.
  - cards_valid_instance preserves_add_to_balance.
  - apply cards_valid_add_credit_card.
  - cards_valid_instance preserves_pay.
  - cards_valid_instance preserves_pay_with_balance.
  - cards_valid_instance preserves_pay_with_card.
  - apply cards_valid_create_user.
Qed.

Lemma cards_valid_state_after_all os w :
  cards_valid w -> cards_valid (state_after_all os w).
Proof.
  revert w. induction os as [ | o os IH]; intros w Hw; [ exact Hw | ].
  cbn [state_after_all fold_left]. apply IH, cards_valid_state_after, Hw.
Qed.

(** Whatever calls a client makes from a start with no user, the card field
    of every user holds nothing or a number of the allow-list. *)
Lemma reachable_cards_valid os w r u :
  heap w = ∅ ->
  heap (state_after_all os w) !! r = Some u -> card_valid u.
Proof.
  intros Hempty. apply cards_valid_state_after_all.
  intros r' u' Hu'. rewrite Hempty, lookup_empty in Hu'. discriminate.
Qed.

(** * Further properties of the code *)

(** ** Validation and success of [pay] *)

(** An amount that is not above zero (zero, negative zero, a negative
    number, minus infinity) is refused after the self-payment test and
    before any look at the funds; the state is left as it was. *)
Theorem pay_invalid_amount w self target u t amount note :
  heap w !! self = Some u ->
  heap w !! target = Some t ->
  username u <> username t ->
  (amount <=? 0)%float = true ->
  pay self target amount note w = (Raise InvalidAmountError, w).
Proof.
  intros Hs Ht Hn Hle. unfold pay.
  rewrite (bind_ok _ _ _ _ _ (load_some _ _ _ Hs)).
  rewrite (bind_ok _ _ _ _ _ (load_some _ _ _ Ht)).
  destruct (decide (username u = username t)); [ contradiction | ].
  now rewrite Hle.
Qed.

(** The conditions under which [pay] goes through, as one boolean. *)
Definition pay_accepts (u t : User) (amount : float) : bool :=
  negb (String.eqb (username u) (username t))
  && negb (amount <=? 0)%float
  && ((amount <=? balance u)%float || truthy (credit_card_number u)).

(** [pay] returns a payment exactly when the usernames differ, the amount is
    not refused, and the balance covers it or a card is on file; the payment
    returned carries the arguments and the next identifier, and one
    identifier is consumed. *)
Theorem pay_succeeds_iff w self target u t amount note :
  heap w !! self = Some u ->
  heap w !! target = Some t ->
  (pay_accepts u t amount = true <->
   exists p w', pay self target amount note w = (Ok p, w'))
  /\ (forall p w', pay self target amount note w = (Ok p, w') ->
        p = mkPayment (uuid4 w (drawn w)) amount self target note
        /\ drawn w' = S (drawn w) /\ uuid4 w' = uuid4 w /\ users w' = users w).
Proof.
  intros Hs Ht.
  assert (Hcases :
    (pay_accepts u t amount = false /\
     exists e, pay self target amount note w = (Raise e, w))
    \/ (pay_accepts u t amount = true /\
        exists w', pay self target amount note w
                   = (Ok (mkPayment (uuid4 w (drawn w)) amount self target note), w')
                   /\ drawn w' = S (drawn w) /\ uuid4 w' = uuid4 w
                   /\ users w' = users w)).
  { unfold pay_accepts, pay.
    rewrite (bind_ok _ _ _ _ _ (load_some _ _ _ Hs)).
    rewrite (bind_ok _ _ _ _ _ (load_some _ _ _ Ht)).
    destruct (decide (username u = username t)) as [Heq | Hne].
    { left. rewrite Heq, String.eqb_refl. split; [ reflexivity | eauto ]. }
    rewrite (proj2 (String.eqb_neq _ _) Hne). cbn [negb andb].
    destruct (amount <=? 0)%float; cbn [negb andb].
    { left. split; [ reflexivity | eauto ]. }
    assert (Hrefs : self <> target)
      by exact (distinct_usernames_distinct_refs _ _ _ _ _ Hs Ht Hne).
    destruct (amount <=? balance u)%float; cbn [orb].
    { right. split; [ reflexivity | ].
      eexists. split; [ unfold pay_with_balance; exec; reflexivity | ].
      cbn [drawn uuid4 users]. auto. }
    destruct (truthy (credit_card_number u)).
    { right. split; [ reflexivity | ].
      eexists. split.
      - unfold pay_with_card. exec.
        destruct (decide (target ≠ self)) as [_ | Heq];
          [ | exfalso; apply Heq; congruence ].
        exec. reflexivity.
      - cbn [drawn uuid4 users]. auto. }
    left. split; [ reflexivity | eauto ]. }
  destruct Hcases as [[Hacc (e & Hrun)] | [Hacc (w1 & Hrun & Hd & Hu & Hus)]];
    rewrite Hacc, Hrun.
  - split.
    + split; [ discriminate | intros (p & w' & H); discriminate H ].
    + intros p w' H. discriminate H.
  - split.
    + split; [ eauto | reflexivity ].
    + intros p w' H. injection H as <- <-. auto.
Qed.

(** A successful [pay] touches the balance and the feed of the two parties
    and nothing else: their usernames, cards and friend sets are the ones
    before the call, and every other user is as it was. *)
Theorem pay_frame w self target u t amount note p w' :
  pay self target amount note w = (Ok p, w') ->
  heap w !! self = Some u ->
  heap w !! target = Some t ->
  (exists u' t',
     heap w' !! self = Some u' /\ heap w' !! target = Some t'
     /\ username u' = username u /\ username t' = username t
     /\ credit_card_number u' = credit_card_number u
     /\ credit_card_number t' = credit_card_number t
     /\ friends u' = friends u /\ friends t' = friends t)
  /\ (forall r, r <> self -> r <> target -> heap w' !! r = heap w !! r).
Proof.
  intros Hpay Hs Ht.
  destruct (pay_ok_inv _ _ _ _ _ _ _ Hpay) as (u0 & t0 & Hs0 & Ht0 & Hn & Hpath).
  rewrite Hs in Hs0. rewrite Ht in Ht0.
  injection Hs0 as <-. injection Ht0 as <-.
  pose proof (distinct_usernames_distinct_refs _ _ _ _ _ Hs Ht Hn) as Hne.
  destruct Hpath as [Hrun | Hrun].
  - destruct (pay_with_balance_effect w self target u t amount note Hne Hs Ht)
      as (w1 & Hrun1 & Hs' & Ht' & Hframe & _).
    rewrite Hrun in Hrun1. injection Hrun1 as _ <-.
    split; [ | exact Hframe ].
    eexists _, _. split; [ exact Hs' | ]. split; [ exact Ht' | ].
    cbn [username credit_card_number friends]. repeat split.
  - destruct (pay_with_card_effect w self target u t amount note Hne Hs Ht)
      as (w1 & Hrun1 & Hs' & Ht' & Hframe & _).
    rewrite Hrun in Hrun1. injection Hrun1 as _ <-.
    split; [ | exact Hframe ].
    eexists _, _. split; [ exact Hs' | ]. split; [ exact Ht' | ].
    cbn [username credit_card_number friends]. repeat split.
Qed.

(** ** A NaN amount *)






(** ** The two paths called directly *)

(** [pay_with_card] with the payer as target: the guard [target != self]
    skips the credit, so the balance is the one before, and the payment is
    written twice at the end of the one feed. *)
Theorem pay_with_card_to_self w self u amount note :
  heap w !! self = Some u ->
  exists w',
    pay_with_card self self amount note w
    = (Ok (mkPayment (uuid4 w (drawn w)) amount self self note), w')
    /\ heap w' !! self
       = Some (mkUser (username u) (balance u) (credit_card_number u) (friends u)
                 (activity_feed u ++ [payment_message u u amount note;
                                      payment_message u u amount note]))
    /\ (forall r, r <> self -> heap w' !! r = heap w !! r).
Proof.
  intros Hs. eexists. split.
  - unfold pay_with_card. exec.
    destruct (decide (self ≠ self)) as [Hne | _]; [ congruence | ].
    exec. reflexivity.
  - cbn [heap]. split.
    + rewrite lookup_insert_eq.
      unfold activity_feed_append, set_balance, payment_message. user_fields.
      now rewrite <- List.app_assoc.
    + intros r Hr. now rewrite !lookup_insert_ne by congruence.
Qed.

(** [pay_with_balance] with the payer as target: the balance is debited and
    then credited, [(balance - amount) + amount] in floats, and the payment
    is written twice at the end of the one feed.  No test is made: the call
    goes through for every amount and every balance. *)
Theorem pay_with_balance_to_self w self u amount note :
  heap w !! self = Some u ->
  exists w',
    pay_with_balance self self amount note w
    = (Ok (mkPayment (uuid4 w (drawn w)) amount self self note), w')
    /\ heap w' !! self
       = Some (mkUser (username u) (balance u - amount + amount)%float
                 (credit_card_number u) (friends u)
                 (activity_feed u ++ [payment_message u u amount note;
                                      payment_message u u amount note]))
    /\ (forall r, r <> self -> heap w' !! r = heap w !! r).
Proof.
  intros Hs. eexists. split.
  - unfold pay_with_balance. exec. reflexivity.
  - cbn [heap]. split.
    + rewrite lookup_insert_eq.
      unfold activity_feed_append, set_balance, payment_message. user_fields.
      now rewrite <- List.app_assoc.
    + intros r Hr. now rewrite !lookup_insert_ne by congruence.
Qed.

(** ** Befriending oneself *)

(** [add_friend] has no test for [new_friend is self]: a user who adds
    themselves enters their own friend set and gets the message twice. *)
Theorem add_friend_self w self u :
  heap w !! self = Some u ->
  self ∉ friends u ->
  exists w',
    add_friend self self w = (Ok tt, w')
    /\ heap w' !! self
       = Some (mkUser (username u) (balance u) (credit_card_number u)
                 ({[ self ]} ∪ friends u)
                 (activity_feed u ++ [friends_message u u; friends_message u u]))
    /\ (forall r, r <> self -> heap w' !! r = heap w !! r)
    /\ add_friend self self w' = (Ok tt, w').
Proof.
  intros Hs Hnot. eexists. split; [ | split; [ | split ] ].
  - unfold add_friend.
    rewrite (bind_ok _ _ _ _ _ (load_some _ _ _ Hs)).
    destruct (decide (self ∈ friends u)); [ contradiction | ].
    exec. reflexivity.
  - cbn [heap]. rewrite lookup_insert_eq.
    unfold activity_feed_append, friends_add, friends_message. user_fields.
    rewrite <- List.app_assoc.
    assert (E : ({[ self ]} ∪ ({[ self ]} ∪ friends u) : gset nat) = {[ self ]} ∪ friends u)
      by (rewrite (assoc_L (∪)), (idemp_L (∪)); reflexivity).
    now rewrite E.
  - intros r Hr. cbn [heap]. now rewrite !lookup_insert_ne by congruence.
  - eapply add_friend_of_friend.
    + cbn [heap]. apply lookup_insert_eq.
    + user_fields. set_solver.
Qed.

(** ** Exact cases of the float arithmetic *)

Lemma Prim2SF_eq x y : Prim2SF x = Prim2SF y -> x = y.
Proof.
  intros H. rewrite <- (SF2Prim_Prim2SF x), <- (SF2Prim_Prim2SF y). now rewrite H.
Qed.

Lemma finite_le_refl x : isfinite x = true -> (x <=? x)%float = true.
Proof.
  unfold isfinite. rewrite FloatAxioms.leb_spec. unfold SFleb.
  destruct (Prim2SF x) as [s | s | | s m e]; try discriminate; intros _.
  - reflexivity.
  - cbn [SFcompare]. rewrite Z.compare_refl, Pos.compare_cont_refl.
    destruct s; reflexivity.
Qed.

Lemma finite_sub_diag x : isfinite x = true -> (x - x)%float = 0%float.
Proof.
  unfold isfinite. intros H. apply Prim2SF_eq.
  rewrite FloatAxioms.sub_spec. change (Prim2SF 0) with (S754_zero false).
  unfold SF64sub, SFsub.
  destruct (Prim2SF x) as [s | s | | s m e]; try discriminate.
  - destruct s; reflexivity.
  - cbv zeta. rewrite Z.sub_diag. reflexivity.
Qed.


(** A user who pays the whole of a positive, finite balance is funded from
    the balance, the comparison being [>=], and is left with exactly 0.0. *)
Theorem pay_whole_balance w self target u t note :
  heap w !! self = Some u ->
  heap w !! target = Some t ->
  username u <> username t ->
  (0 <? balance u)%float = true ->
  isfinite (balance u) = true ->
  exists p w' u',
    pay self target (balance u) note w = (Ok p, w')
    /\ pay self target (balance u) note w
       = pay_with_balance self target (balance u) note w
    /\ heap w' !! self = Some u'
    /\ balance u' = 0%float.
Proof.
  intros Hs Ht Hn Hpos Hfin.
  pose proof (positive_not_le_zero _ Hpos) as Hle.
  pose proof (finite_le_refl _ Hfin) as Hbal.
  pose proof (distinct_usernames_distinct_refs _ _ _ _ _ Hs Ht Hn) as Hne.
  pose proof (pay_balance_path _ _ _ _ _ _ note Hs Ht Hn Hle Hbal) as Hpath.
  destruct (pay_with_balance_effect w self target u t (balance u) note Hne Hs Ht)
    as (w' & Hrun & Hs' & _).
  eexists _, w', _. rewrite Hpath.
  split; [ exact Hrun | ]. split; [ reflexivity | ]. split; [ exact Hs' | ].
  cbn [balance]. now apply finite_sub_diag.
Qed.


(** ** Attaching a card *)

Lemma valid_credit_card_iff number :
  _is_valid_credit_card number = true <->
  number = "4111111111111111" \/ number = "4242424242424242".
Proof.
  unfold _is_valid_credit_card. rewrite orb_true_iff, !String.eqb_eq. reflexivity.
Qed.

(** A user without a card gets one of the two numbers of the allow-list
    attached; nothing else of the user and no other user changes, and from
    then on every [add_credit_card] on that user raises. *)
Theorem add_credit_card_first w self u number :
  heap w !! self = Some u ->
  credit_card_number u = None ->
  number = "4111111111111111" \/ number = "4242424242424242" ->
  exists w',
    add_credit_card self number w = (Ok tt, w')
    /\ heap w' !! self
       = Some (mkUser (username u) (balance u) (Some number) (friends u)
                 (activity_feed u))
    /\ (forall r, r <> self -> heap w' !! r = heap w !! r)
    /\ (forall other, add_credit_card self other w' = (Raise DuplicateCardError, w')).
Proof.
  intros Hs Hnone Hvalid. apply valid_credit_card_iff in Hvalid.
  eexists. split; [ | split; [ | split ] ].
  - unfold add_credit_card. exec. rewrite Hnone, Hvalid. exec. reflexivity.
  - cbn [heap]. now rewrite lookup_insert_eq.
  - intros r Hr. cbn [heap]. now rewrite lookup_insert_ne by congruence.
  - intros other. eapply add_credit_card_twice.
    + cbn [heap]. apply lookup_insert_eq.
    + reflexivity.
Qed.

(** Any other number is refused for a user without a card, and the state
    is left as it was. *)
Theorem add_credit_card_refused w self u number :
  heap w !! self = Some u ->
  credit_card_number u = None ->
  number <> "4111111111111111" ->
  number <> "4242424242424242" ->
  add_credit_card self number w = (Raise InvalidCreditCardError, w).
Proof.
  intros Hs Hnone H1 H2.
  assert (Hinvalid : _is_valid_credit_card number = false).
  { destruct (_is_valid_credit_card number) eqn:E; [ | reflexivity ].
    apply valid_credit_card_iff in E as [E | E]; contradiction. }
  unfold add_credit_card. exec. now rewrite Hnone, Hinvalid.
Qed.

(** ** Creating users *)

(** The card number [create_user] attaches: [None] and the empty string both
    mean no card. *)
Definition card_given (c : option string) : option string :=
  if truthy c then c else None.

Definition card_acceptable (c : option string) : bool :=
  match card_given c with
  | Some number => _is_valid_credit_card number
  | None => true
  end.

Lemma create_user_effect w name b c :
  users w !! name = None ->
  _is_valid_username name = true ->
  card_acceptable c = true ->
  exists r w',
    create_user name b c w = (Ok r, w')
    /\ heap w !! r = None
    /\ heap w' !! r = Some (mkUser name (0 + b)%float (card_given c) ∅ [])
    /\ users w' = <[ name := r ]> (users w)
    /\ (forall r', r' <> r -> heap w' !! r' = heap w !! r').
Proof.
  intros Hfree Hname Hcard.
  assert (Hfresh : heap w !! fresh (dom (heap w)) = None).
  { apply not_elem_of_dom, is_fresh. }
  exists (fresh (dom (heap w))).
  unfold create_user. rewrite Hfree. unfold User_init. rewrite Hname.
  unfold alloc. exec. user_fields.
  unfold card_acceptable, card_given in *.
  destruct c as [number | ].
  - destruct (truthy (Some number)).
    + unfold add_credit_card. exec. user_fields. rewrite Hcard. exec.
      eexists. split; [ reflexivity | ]. cbn [heap users].
      split; [ exact Hfresh | ]. split; [ now rewrite lookup_insert_eq | ].
      split; [ reflexivity | ].
      intros r' Hr'. now rewrite !lookup_insert_ne by congruence.
    + exec. eexists. split; [ reflexivity | ]. cbn [heap users].
      split; [ exact Hfresh | ]. split; [ now rewrite lookup_insert_eq | ].
      split; [ reflexivity | ].
      intros r' Hr'. now rewrite !lookup_insert_ne by congruence.
  - exec. eexists. split; [ reflexivity | ]. cbn [heap users].
    split; [ exact Hfresh | ]. split; [ now rewrite lookup_insert_eq | ].
    split; [ reflexivity | ].
    intros r' Hr'. now rewrite !lookup_insert_ne by congruence.
Qed.

(** With a free and valid username and a card that is absent, empty or on
    the allow-list, [create_user] returns a new object, registered under the
    username, with balance [0.0 + balance] (no test is made on the sign or
    on NaN), the card if one was given, no friends and an empty feed; the
    users there were are as before. *)
Theorem create_user_new w name b c :
  users w !! name = None ->
  _is_valid_username name = true ->
  card_acceptable c = true ->
  exists r w',
    create_user name b c w = (Ok r, w')
    /\ heap w !! r = None
    /\ heap w' !! r = Some (mkUser name (0 + b)%float (card_given c) ∅ [])
    /\ users w' = <[ name := r ]> (users w)
    /\ (forall r', r' <> r -> heap w' !! r' = heap w !! r').
Proof. exact (create_user_effect w name b c). Qed.

(** The outcome of [create_user] from its arguments: a taken username is
    reported first, whatever else is wrong; then a username the pattern
    rejects; then a card that is not on the allow-list; otherwise the call
    returns.  In the first two cases the state is the one before the call;
    in the third the dict is. *)
Theorem create_user_outcome w name b c :
  match users w !! name with
  | Some _ => create_user name b c w = (Raise DuplicateUsernameError, w)
  | None =>
      if _is_valid_username name
      then
        if card_acceptable c
        then exists r w', create_user name b c w = (Ok r, w')
        else exists w', create_user name b c w = (Raise InvalidCreditCardError, w')
                        /\ users w' = users w
      else create_user name b c w = (Raise InvalidUsernameError, w)
  end.
Proof.
  destruct (users w !! name) as [taken | ] eqn:Hfree.
  { unfold create_user. now rewrite Hfree. }
  destruct (_is_valid_username name) eqn:Hname.
  2:{ unfold create_user, User_init. now rewrite Hfree, Hname. }
  destruct (card_acceptable c) eqn:Hcard.
  { destruct (create_user_effect w name b c Hfree Hname Hcard) as (r & w' & Hrun & _).
    eauto. }
  unfold create_user, User_init. rewrite Hfree, Hname.
  unfold card_acceptable, card_given in Hcard.
  destruct c as [number | ]; [ | discriminate Hcard ].
  unfold alloc. exec.
  destruct (truthy (Some number)); [ | discriminate Hcard ].
  unfold add_credit_card. exec. user_fields. rewrite Hcard. exec.
  eexists. split; reflexivity.
Qed.

(** After a card number was refused the username is still free: the same
    call with a card of the allow-list, or with none, goes through. *)
Theorem create_user_retry w name b c w1 b' c' :
  create_user name b c w = (Raise InvalidCreditCardError, w1) ->
  card_acceptable c' = true ->
  exists r w2,
    create_user name b' c' w1 = (Ok r, w2)
    /\ users w2 = <[ name := r ]> (users w)
    /\ heap w2 !! r = Some (mkUser name (0 + b')%float (card_given c') ∅ []).
Proof.
  intros Hfail Hcard.
  assert (H : users w1 = users w /\ users w !! name = None
              /\ _is_valid_username name = true).
  { revert Hfail. unfold create_user.
    destruct (users w !! name) as [taken | ]; [ discriminate | ].
    unfold User_init. destruct (_is_valid_username name);
      [ | unfold bind, raise; discriminate ].
    unfold alloc. exec.
    destruct c as [number | ]; [ | exec; discriminate ].
    destruct (truthy (Some number)); [ | exec; discriminate ].
    unfold add_credit_card. exec. user_fields.
    destruct (_is_valid_credit_card number); exec; [ discriminate | ].
    intros H. injection H as <-. auto. }
  destruct H as (Husers & Hfree & Hname).
  rewrite <- Husers in Hfree.
  destruct (create_user_effect w1 name b' c' Hfree Hname Hcard)
    as (r & w2 & Hrun & _ & Hr & Hreg & _).
  exists r, w2. rewrite <- Husers. auto.
Qed.

(** ** The username pattern *)

Definition newline : string := String (ascii_of_nat 10) EmptyString.

Lemma at_dollar_iff tail : at_dollar tail = true <-> tail = "" \/ tail = newline.
Proof.
  unfold at_dollar, newline. destruct tail as [ | c [ | d tail]].
  - intuition.
  - rewrite Nat.eqb_eq. split.
    + intros H. right. f_equal. rewrite <- (ascii_nat_embedding c). now rewrite H.
    + intros [H | H]; [ discriminate H | ]. injection H as ->. reflexivity.
  - split; [ discriminate | intros [H | H]; discriminate H ].
Qed.

(** What [_is_valid_username] accepts: 4 to 15 characters out of letters,
    digits, underscore, hyphen and backslash, optionally followed by one
    newline, and nothing else. *)
Theorem is_valid_username_iff s :
  _is_valid_username s = true <->
  exists body,
    (s = body \/ s = body ++ newline)
    /\ (4 <= String.length body <= 15)%nat
    /\ forallb username_class (list_ascii_of_string body) = true.
Proof.
  unfold _is_valid_username. rewrite match_repeat_dollar_spec. split.
  - intros (body & tail & -> & Hd & Hlen & Hall).
    exists body. apply at_dollar_iff in Hd as [-> | ->].
    + rewrite string_app_empty. auto.
    + auto.
  - intros (body & [-> | ->] & Hlen & Hall).
    + exists body, "". rewrite string_app_empty. auto.
    + exists body, newline. repeat split; auto; lia.
Qed.

Lemma string_length_app (a b : string) :
  String.length (a ++ b) = (String.length a + String.length b)%nat.
Proof.
  induction a as [ | c a IH]; [ reflexivity | ].
  change (S (String.length (a ++ b)) = S (String.length a + String.length b)).
  now rewrite IH.
Qed.

(** Length bounds: nothing shorter than 4 characters is accepted, and
    nothing longer than 16 (15 and a final newline). *)
Theorem is_valid_username_length s :
  _is_valid_username s = true -> (4 <= String.length s <= 16)%nat.
Proof.
  unfold _is_valid_username. rewrite match_repeat_dollar_spec.
  intros (body & tail & -> & Hd & Hlen & _).
  rewrite string_length_app.
  apply at_dollar_iff in Hd as [-> | ->]; cbn [String.length newline]; lia.
Qed.

(** ** Relations kept by every call

    The relations of the section [preserves], carried to [add_credit_card],
    to [create_user] and to every call of [operation]. *)

Section preserves_calls.
Variable R : World -> World -> Prop.
Variable ok_update : (User -> User) -> Prop.
Variable ok_alloc : User -> Prop.

Hypothesis R_refl : forall w, R w w.
Hypothesis R_trans : forall w1 w2 w3, R w1 w2 -> R w2 w3 -> R w1 w3.
Hypothesis R_update : forall w r f u,
  ok_update f -> heap w !! r = Some u -> R w (with_heap (insert r (f u)) w).
Hypothesis R_alloc : forall w u,
  ok_alloc u -> R w (with_heap (insert (fresh (dom (heap w))) u) w).
Hypothesis R_heap_only : forall w us d, R w (mkWorld (heap w) us (uuid4 w) d).

Hypothesis ok_set_balance : forall b, ok_update (set_balance b).
Hypothesis ok_set_credit_card_number : forall c, ok_update (set_credit_card_number c).
Hypothesis ok_activity_feed_append : forall s, ok_update (activity_feed_append s).
Hypothesis ok_new_user : forall name, ok_alloc (mkUser name 0%float None ∅ []).

Lemma preserves_add_credit_card self number :
  preserves R (add_credit_card self number).
Proof.
  unfold add_credit_card.
  apply preserves_bind; [ assumption | now apply preserves_load | intros u ].
  destruct (credit_card_number u); [ now apply preserves_raise | ].
  destruct (_is_valid_credit_card number).
  - eapply preserves_update; eauto.
  - now apply preserves_raise.
Qed.

Lemma preserves_create_user name b c : preserves R (create_user name b c).
Proof.
  intros w. unfold create_user.
  destruct (users w !! name); [ apply R_refl | ].
  revert w.
  change (preserves R
    (let! user := User_init name in
     let! _ := add_to_balance user b in
     let! _ := (match c with
                | Some number => if truthy c then add_credit_card user number else ret tt
                | None => ret tt
                end) in
     let! _ := (fun w' => (Ok tt, with_users (insert name user) w')) in
     ret user)).
  apply preserves_bind; [ assumption | | intros user ].
  { eapply preserves_User_init; eauto. }
  apply preserves_bind; [ assumption | | intros _ ].
  { eapply preserves_add_to_balance; eauto. }
  apply preserves_bind; [ assumption | | intros _ ].
  { destruct c as [number | ]; [ | now apply preserves_ret ].
    destruct (truthy (Some number));
      [ apply preserves_add_credit_card | now apply preserves_ret ]. }
  apply preserves_bind; [ assumption | | intros _; now apply preserves_ret ].
  intros w. apply R_heap_only.
Qed.

Definition is_add_friend (o : operation) : bool :=
  match o with
  | Call_add_friend _ _ => true
  | _ => false
  end.

Lemma preserves_state_after_but_add_friend o w :
  is_add_friend o = false -> R w (state_after o w).
Proof.
  destruct o; cbn [is_add_friend state_after]; intros H; try discriminate H.
  - eapply preserves_User_init; eauto.
  - eapply preserves_retrieve_feed; eauto.
  - eapply preserves_add_to_balance; eauto.
  - apply preserves_add_credit_card.
  - eapply preserves_pay; eauto.
  - eapply preserves_pay_with_balance; eauto.
  - eapply preserves_pay_with_card; eauto.
  - apply preserves_create_user.
Qed.

Hypothesis ok_friends_add : forall r, ok_update (friends_add r).

Lemma preserves_state_after o w : R w (state_after o w).
Proof.
  destruct (is_add_friend o) eqn:Ho.
  - destruct o; try discriminate Ho. cbn [state_after].
    eapply preserves_add_friend; eauto.
  - now apply preserves_state_after_but_add_friend.
Qed.

Lemma preserves_state_after_all os w : R w (state_after_all os w).
Proof.
  revert w. induction os as [ | o os IH]; intros w; [ apply R_refl | ].
  cbn [state_after_all fold_left].
  eapply R_trans; [ apply preserves_state_after | apply IH ].
Qed.
End preserves_calls.

(** *** Relations on each user *)

Section user_frame.
Variable Q : User -> User -> Prop.
Hypothesis Q_refl : forall u, Q u u.
Hypothesis Q_trans : forall u1 u2 u3, Q u1 u2 -> Q u2 u3 -> Q u1 u3.

(** Every user of [w] is still there in [w'], related by [Q] to what it
    was. *)
Definition user_frame (w w' : World) : Prop :=
  forall r u, heap w !! r = Some u -> exists u', heap w' !! r = Some u' /\ Q u u'.

Definition user_step (f : User -> User) : Prop := forall u, Q u (f u).

Lemma user_frame_refl w : user_frame w w.
Proof. intros r u H. eauto. Qed.

Lemma user_frame_trans w1 w2 w3 :
  user_frame w1 w2 -> user_frame w2 w3 -> user_frame w1 w3.
Proof.
  intros H12 H23 r u H.
  destruct (H12 r u H) as (u2 & H2 & Q2).
  destruct (H23 r u2 H2) as (u3 & H3 & Q3).
  eauto.
Qed.

Lemma user_frame_update w r f u :
  user_step f -> heap w !! r = Some u -> user_frame w (with_heap (insert r (f u)) w).
Proof.
  intros Hf Hr r' u' H. cbn [heap with_heap].
  destruct (decide (r = r')) as [<- | Hne].
  - rewrite lookup_insert_eq. exists (f u). split; [ reflexivity | ].
    rewrite Hr in H. injection H as <-. apply Hf.
  - rewrite lookup_insert_ne by exact Hne. eauto.
Qed.

Lemma user_frame_alloc w u :
  True -> user_frame w (with_heap (insert (fresh (dom (heap w))) u) w).
Proof.
  intros _ r u' H. cbn [heap with_heap].
  rewrite lookup_insert_ne; [ eauto | ].
  intros <-. pose proof (is_fresh (dom (heap w))) as Hfresh.
  apply not_elem_of_dom in Hfresh. congruence.
Qed.

Lemma user_frame_heap_only w us d : user_frame w (mkWorld (heap w) us (uuid4 w) d).
Proof. intros r u H. cbn [heap]. eauto. Qed.

Hypothesis Q_set_balance : forall b, user_step (set_balance b).
Hypothesis Q_set_credit_card_number : forall c, user_step (set_credit_card_number c).
Hypothesis Q_activity_feed_append : forall s, user_step (activity_feed_append s).
Hypothesis Q_friends_add : forall r, user_step (friends_add r).

Lemma user_frame_state_after_all os w : user_frame w (state_after_all os w).
Proof.
  apply (preserves_state_after_all user_frame user_step (fun _ => True));
    first
      [ exact user_frame_refl | exact user_frame_trans | exact user_frame_update
      | exact user_frame_alloc | exact user_frame_heap_only
      | assumption | exact (fun _ => I) ].
Qed.
End user_frame.

(** ** What no sequence of calls undoes *)

(** No call removes a user or changes a username: after any sequence of
    calls every user is still there under the username it had. *)
Theorem usernames_never_change os w r u :
  heap w !! r = Some u ->
  exists u', heap (state_after_all os w) !! r = Some u' /\ username u' = username u.
Proof.
  intros Hr.
  refine (user_frame_state_after_all (fun u u' => username u' = username u)
            _ _ _ _ _ _ os w r u Hr).
  - reflexivity.
  - intros u1 u2 u3 H12 H23. congruence.
  - intros b v. reflexivity.
  - intros c v. reflexivity.
  - intros s v. reflexivity.
  - intros x v. reflexivity.
Qed.

(** Feeds are append-only: after any sequence of calls a user's feed is the
    feed it was, followed by the entries added since. *)
Theorem feeds_append_only os w r u :
  heap w !! r = Some u ->
  exists u' added,
    heap (state_after_all os w) !! r = Some u'
    /\ activity_feed u' = (activity_feed u ++ added)%list.
Proof.
  intros Hr.
  destruct (user_frame_state_after_all
              (fun u u' => exists added, activity_feed u' = (activity_feed u ++ added)%list))
    with (os := os) (w := w) (r := r) (u := u) as (u' & Hu' & added & Hfeed).
  - intros v. exists []. now rewrite app_nil_r.
  - intros u1 u2 u3 (a12 & H12) (a23 & H23). exists (a12 ++ a23)%list.
    rewrite H23, H12. now rewrite <- List.app_assoc.
  - intros b v. exists []. cbn [activity_feed set_balance]. now rewrite app_nil_r.
  - intros c v. exists []. cbn [activity_feed set_credit_card_number].
    now rewrite app_nil_r.
  - intros s v. exists [s]. reflexivity.
  - intros x v. exists []. cbn [activity_feed friends_add]. now rewrite app_nil_r.
  - exact Hr.
  - eauto.
Qed.

(** There is no way to unfriend: after any sequence of calls a user's friend
    set contains the one it had. *)
Theorem friends_only_grow os w r u :
  heap w !! r = Some u ->
  exists u', heap (state_after_all os w) !! r = Some u' /\ friends u ⊆ friends u'.
Proof.
  intros Hr.
  refine (user_frame_state_after_all (fun u u' => friends u ⊆ friends u')
            _ _ _ _ _ _ os w r u Hr).
  - reflexivity.
  - intros u1 u2 u3 H12 H23. set_solver.
  - intros b v. reflexivity.
  - intros c v. reflexivity.
  - intros s v. reflexivity.
  - intros x v. cbn [friends friends_add]. set_solver.
Qed.

(** ** The registry *)

(** Only [create_user] assigns to the [users] dict. *)
Definition users_same (w w' : World) : Prop := users w' = users w.

Lemma users_same_refl w : users_same w w.
Proof. reflexivity. Qed.

Lemma users_same_trans w1 w2 w3 :
  users_same w1 w2 -> users_same w2 w3 -> users_same w1 w3.
Proof. unfold users_same. congruence. Qed.

Lemma users_same_update r f : preserves users_same (update r f).
Proof. intros w. unfold update. destruct (heap w !! r); reflexivity. Qed.

Lemma users_same_Payment_init a s t n : preserves users_same (Payment_init a s t n).
Proof. intros w. reflexivity. Qed.

Ltac users_same_steps :=
  repeat first
    [ apply preserves_bind; [ exact users_same_trans | | intros ? ]
    | apply preserves_ret; exact users_same_refl
    | apply preserves_raise; exact users_same_refl
    | apply preserves_load; exact users_same_refl
    | apply users_same_update
    | apply users_same_Payment_init
    | assumption ].

Lemma users_same_Payment_str p : preserves users_same (Payment_str p).
Proof. unfold Payment_str. users_same_steps. Qed.

Lemma users_same_add_to_balance r a : preserves users_same (add_to_balance r a).
Proof. unfold add_to_balance. users_same_steps. Qed.

Lemma users_same_state_after o w :
  (forall name b c, o <> Call_create_user name b c) ->
  users (state_after o w) = users w.
Proof.
  intros Hnot. pose proof users_same_Payment_str as HS.
  pose proof users_same_add_to_balance as HB.
  destruct o as [name | self | self n | self a | self number | s t a n | s t a n
                | s t a n | name b c]; cbn [state_after].
  - unfold User_init. destruct (_is_valid_username name); reflexivity.
  - revert w. change (preserves users_same (retrieve_feed self)).
    unfold retrieve_feed. users_same_steps.
  - revert w. change (preserves users_same (add_friend self n)).
    unfold add_friend. users_same_steps.
    destruct (decide (n ∈ friends a)); users_same_steps.
  - apply HB.
  - revert w. change (preserves users_same (add_credit_card self number)).
    unfold add_credit_card. users_same_steps.
    destruct (credit_card_number a); users_same_steps.
    destruct (_is_valid_credit_card number); users_same_steps.
  - revert w. change (preserves users_same (pay s t a n)).
    unfold pay. users_same_steps.
    destruct (decide (username a0 = username a1)); users_same_steps.
    destruct (a <=? 0)%float; users_same_steps.
    destruct (a <=? balance a0)%float.
    { unfold pay_with_balance. users_same_steps. }
    destruct (truthy (credit_card_number a0)); users_same_steps.
    unfold pay_with_card, _charge_credit_card. users_same_steps.
    destruct (decide (t ≠ s)); users_same_steps.
  - revert w. change (preserves users_same (pay_with_balance s t a n)).
    unfold pay_with_balance. users_same_steps.
  - revert w. change (preserves users_same (pay_with_card s t a n)).
    unfold pay_with_card, _charge_credit_card. users_same_steps.
    destruct (decide (t ≠ s)); users_same_steps.
  - exfalso. exact (Hnot name b c eq_refl).
Qed.

(** What [create_user] does to the dict: nothing, or one entry for the new
    user under its username. *)
Lemma create_user_users name b c w :
  users (create_user name b c w).2 = users w
  \/ exists r u,
       users (create_user name b c w).2 = <[ name := r ]> (users w)
       /\ heap (create_user name b c w).2 !! r = Some u /\ username u = name.
Proof.
  unfold create_user.
  destruct (users w !! name) as [taken | ]; [ now left | ].
  unfold User_init. destruct (_is_valid_username name); [ | now left ].
  unfold alloc. exec. user_fields.
  destruct c as [number | ].
  - destruct (truthy (Some number)).
    + unfold add_credit_card. exec. user_fields.
      destruct (_is_valid_credit_card number); exec; [ | now left ].
      right. eexists _, _. cbn [snd users heap]. split; [ reflexivity | ].
      split; [ apply lookup_insert_eq | reflexivity ].
    + exec. right. eexists _, _. cbn [snd users heap]. split; [ reflexivity | ].
      split; [ apply lookup_insert_eq | reflexivity ].
  - exec. right. eexists _, _. cbn [snd users heap]. split; [ reflexivity | ].
    split; [ apply lookup_insert_eq | reflexivity ].
Qed.

(** Every entry of the dict leads to a user with the entry's key as
    username. *)
Definition registry_ok (w : World) : Prop :=
  forall name r, users w !! name = Some r ->
    exists u, heap w !! r = Some u /\ username u = name.

Lemma username_frame_state_after o w r u :
  heap w !! r = Some u ->
  exists u', heap (state_after o w) !! r = Some u' /\ username u' = username u.
Proof.
  intros Hr.
  refine (user_frame_state_after_all (fun u u' => username u' = username u)
            _ _ _ _ _ _ [o] w r u Hr).
  - reflexivity.
  - intros u1 u2 u3 H12 H23. congruence.
  - intros b v. reflexivity.
  - intros c v. reflexivity.
  - intros s v. reflexivity.
  - intros x v. reflexivity.
Qed.

Lemma registry_ok_state_after o w : registry_ok w -> registry_ok (state_after o w).
Proof.
  intros Hw name r Hname.
  assert (Hold : forall n x, users w !! n = Some x ->
            exists v, heap (state_after o w) !! x = Some v /\ username v = n).
  { intros n x Hn. destruct (Hw n x Hn) as (v & Hv & <-).
    exact (username_frame_state_after o w x v Hv). }
  destruct o as [n0 | self | self n | self a | self number | s t a n | s t a n
                | s t a n | n0 b c];
    try (rewrite users_same_state_after in Hname by (intros; discriminate);
         exact (Hold _ _ Hname)).
  cbn [state_after] in *.
  destruct (create_user_users n0 b c w) as [Hsame | (x & v & Hreg & Hx & Hv)].
  - rewrite Hsame in Hname. exact (Hold _ _ Hname).
  - rewrite Hreg in Hname. apply lookup_insert_Some in Hname as [[<- <-] | [_ Hname]].
    + eauto.
    + exact (Hold _ _ Hname).
Qed.

(** The registry stays consistent through every sequence of calls: an entry
    leads to a user whose username is the key, so two keys never lead to the
    same user. *)
Theorem registry_consistent os w :
  registry_ok w ->
  registry_ok (state_after_all os w)
  /\ (forall n1 n2 r,
        users (state_after_all os w) !! n1 = Some r ->
        users (state_after_all os w) !! n2 = Some r -> n1 = n2).
Proof.
  intros Hw.
  assert (H : registry_ok (state_after_all os w)).
  { revert w Hw. induction os as [ | o os IH]; intros w Hw; [ exact Hw | ].
    cbn [state_after_all fold_left]. apply IH, registry_ok_state_after, Hw. }
  split; [ exact H | ].
  intros n1 n2 r H1 H2.
  destruct (H n1 r H1) as (u1 & Hu1 & <-).
  destruct (H n2 r H2) as (u2 & Hu2 & <-).
  congruence.
Qed.

(** ** Friendship is mutual *)

(** Friendship is mutual, and friends are users that exist. *)
Definition friends_ok (w : World) : Prop :=
  (forall a b ua ub, heap w !! a = Some ua -> heap w !! b = Some ub ->
     b ∈ friends ua -> a ∈ friends ub)
  /\ (forall a ua b, heap w !! a = Some ua -> b ∈ friends ua ->
        is_Some (heap w !! b)).

(** The friend sets of the users there were are the same, and a user made
    since has none. *)
Definition friends_frame (w w' : World) : Prop :=
  forall r,
    match heap w !! r, heap w' !! r with
    | Some u, Some u' => friends u' = friends u
    | None, Some u' => friends u' = ∅
    | None, None => True
    | Some _, None => False
    end.

Definition keeps_friends (f : User -> User) : Prop :=
  forall u, friends (f u) = friends u.

Definition no_friends (u : User) : Prop := friends u = ∅.

Lemma friends_frame_refl w : friends_frame w w.
Proof. intros r. destruct (heap w !! r); auto. Qed.

Lemma friends_frame_trans w1 w2 w3 :
  friends_frame w1 w2 -> friends_frame w2 w3 -> friends_frame w1 w3.
Proof.
  intros H12 H23 r. specialize (H12 r). specialize (H23 r).
  destruct (heap w1 !! r), (heap w2 !! r), (heap w3 !! r);
    try contradiction; try exact I; congruence.
Qed.

Lemma friends_frame_update w r f u :
  keeps_friends f -> heap w !! r = Some u ->
  friends_frame w (with_heap (insert r (f u)) w).
Proof.
  intros Hf Hr r'. cbn [heap with_heap].
  destruct (decide (r = r')) as [<- | Hne].
  - rewrite lookup_insert_eq, Hr. apply Hf.
  - rewrite lookup_insert_ne by exact Hne. destruct (heap w !! r'); auto.
Qed.

Lemma friends_frame_alloc w u :
  no_friends u -> friends_frame w (with_heap (insert (fresh (dom (heap w))) u) w).
Proof.
  intros Hu r'. cbn [heap with_heap].
  destruct (decide (fresh (dom (heap w)) = r')) as [<- | Hne].
  - rewrite lookup_insert_eq.
    pose proof (is_fresh (dom (heap w))) as Hfresh.
    apply not_elem_of_dom in Hfresh. rewrite Hfresh. exact Hu.
  - rewrite lookup_insert_ne by exact Hne. destruct (heap w !! r'); auto.
Qed.

Lemma friends_frame_heap_only w us d :
  friends_frame w (mkWorld (heap w) us (uuid4 w) d).
Proof. intros r. cbn [heap]. destruct (heap w !! r); auto. Qed.

Lemma friends_frame_state_after o w :
  is_add_friend o = false -> friends_frame w (state_after o w).
Proof.
  apply (preserves_state_after_but_add_friend friends_frame keeps_friends no_friends);
    first
      [ exact friends_frame_refl | exact friends_frame_trans
      | exact friends_frame_update | exact friends_frame_alloc
      | exact friends_frame_heap_only
      | intros ? ?; reflexivity
      | intros ?; reflexivity ].
Qed.

Lemma friends_ok_frame w w' : friends_ok w -> friends_frame w w' -> friends_ok w'.
Proof.
  intros [Hsym Hbound] Hframe. split.
  - intros a b ua' ub' Ha' Hb' Hin.
    pose proof (Hframe a) as Fa. rewrite Ha' in Fa.
    destruct (heap w !! a) as [ua | ] eqn:Ha;
      [ | rewrite Fa in Hin; now apply not_elem_of_empty in Hin ].
    rewrite Fa in Hin.
    destruct (Hbound a ua b Ha Hin) as [ub Hb].
    pose proof (Hframe b) as Fb. rewrite Hb, Hb' in Fb. rewrite Fb.
    exact (Hsym a b ua ub Ha Hb Hin).
  - intros a ua' b Ha' Hin.
    pose proof (Hframe a) as Fa. rewrite Ha' in Fa.
    destruct (heap w !! a) as [ua | ] eqn:Ha;
      [ | rewrite Fa in Hin; now apply not_elem_of_empty in Hin ].
    rewrite Fa in Hin.
    destruct (Hbound a ua b Ha Hin) as [ub Hb].
    pose proof (Hframe b) as Fb. rewrite Hb in Fb.
    destruct (heap w' !! b); [ eauto | contradiction ].
Qed.

(** The friend sets after a first [add_friend], also of a user with
    themselves. *)
Lemma add_friend_friends w a b ua ub :
  heap w !! a = Some ua ->
  heap w !! b = Some ub ->
  b ∉ friends ua ->
  forall r,
    match heap w !! r, heap (add_friend a b w).2 !! r with
    | Some u, Some u' =>
        friends u' = (if decide (r = a) then {[ b ]} else ∅)
                     ∪ (if decide (r = b) then {[ a ]} else ∅) ∪ friends u
    | None, None => True
    | _, _ => False
    end.
Proof.
  intros Ha Hb Hnot r. unfold add_friend.
  rewrite (bind_ok _ _ _ _ _ (load_some _ _ _ Ha)).
  destruct (decide (b ∈ friends ua)); [ contradiction | ].
  destruct (decide (a = b)) as [<- | Hne].
  - assert (ub = ua) by congruence. subst ub. clear Hb.
    exec. cbn [snd heap].
    destruct (decide (r = a)) as [-> | Hr].
    + rewrite Ha, lookup_insert_eq.
      unfold activity_feed_append, friends_add. user_fields.
      rewrite (assoc_L (∪)). reflexivity.
    + rewrite !lookup_insert_ne by congruence.
      destruct (heap w !! r); [ | exact I ].
      now rewrite !(left_id_L ∅ (∪)).
  - exec. cbn [snd heap].
    destruct (decide (r = a)) as [-> | Hra].
    + rewrite Ha, lookup_insert_ne, lookup_insert_eq by congruence.
      unfold activity_feed_append, friends_add. user_fields.
      destruct (decide (a = b)); [ contradiction | ].
      now rewrite (right_id_L ∅ (∪)).
    + destruct (decide (r = b)) as [-> | Hrb].
      * rewrite Hb, lookup_insert_eq.
        unfold activity_feed_append, friends_add. user_fields.
        now rewrite (left_id_L ∅ (∪)).
      * rewrite !lookup_insert_ne by congruence.
        destruct (heap w !! r); [ | exact I ].
        now rewrite !(left_id_L ∅ (∪)).
Qed.

Lemma friends_ok_add_friend w a b :
  friends_ok w ->
  is_Some (heap w !! a) -> is_Some (heap w !! b) ->
  friends_ok (add_friend a b w).2.
Proof.
  intros Hok [ua Ha] [ub Hb].
  destruct (decide (b ∈ friends ua)) as [Hin | Hnot].
  { now rewrite (add_friend_of_friend _ _ _ _ Ha Hin). }
  pose proof (add_friend_friends w a b ua ub Ha Hb Hnot) as Hnew.
  destruct Hok as [Hsym Hbound].
  assert (Hback : forall r u', heap (add_friend a b w).2 !! r = Some u' ->
            exists u, heap w !! r = Some u
              /\ friends u' = (if decide (r = a) then {[ b ]} else ∅)
                              ∪ (if decide (r = b) then {[ a ]} else ∅) ∪ friends u).
  { intros r u' Hr. specialize (Hnew r). rewrite Hr in Hnew.
    destruct (heap w !! r) as [u | ]; [ eauto | contradiction ]. }
  split.
  - intros x y ux' uy' Hx' Hy' Hin.
    destruct (Hback x ux' Hx') as (ux & Hx & Ex).
    destruct (Hback y uy' Hy') as (uy & Hy & Ey).
    rewrite Ex in Hin. rewrite Ey.
    apply elem_of_union in Hin as [Hin | Hin];
      [ apply elem_of_union in Hin as [Hin | Hin] | ].
    + destruct (decide (x = a)) as [-> | ];
        [ | now apply not_elem_of_empty in Hin ].
      apply elem_of_singleton in Hin. subst y.
      destruct (decide (b = b)); [ | congruence ].
      apply elem_of_union_l, elem_of_union_r, elem_of_singleton. reflexivity.
    + destruct (decide (x = b)) as [-> | ];
        [ | now apply not_elem_of_empty in Hin ].
      apply elem_of_singleton in Hin. subst y.
      destruct (decide (a = a)); [ | congruence ].
      apply elem_of_union_l, elem_of_union_l, elem_of_singleton. reflexivity.
    + apply elem_of_union_r. exact (Hsym x y ux uy Hx Hy Hin).
  - intros x ux' y Hx' Hin.
    destruct (Hback x ux' Hx') as (ux & Hx & Ex). rewrite Ex in Hin.
    assert (Hy : is_Some (heap w !! y)).
    { apply elem_of_union in Hin as [Hin | Hin];
        [ apply elem_of_union in Hin as [Hin | Hin] | ].
      - destruct (decide (x = a)); [ | now apply not_elem_of_empty in Hin ].
        apply elem_of_singleton in Hin. subst y. eauto.
      - destruct (decide (x = b)); [ | now apply not_elem_of_empty in Hin ].
        apply elem_of_singleton in Hin. subst y. eauto.
      - exact (Hbound x ux y Hx Hin). }
    destruct Hy as [uy Hy]. specialize (Hnew y). rewrite Hy in Hnew.
    destruct (heap (add_friend a b w).2 !! y); [ eauto | contradiction ].
Qed.

(** Each [add_friend] of the sequence is given two users that exist, as a
    Python call always is. *)
Fixpoint friend_calls_bound (os : list operation) (w : World) : Prop :=
  match os with
  | [] => True
  | o :: os' =>
      match o with
      | Call_add_friend a b => is_Some (heap w !! a) /\ is_Some (heap w !! b)
      | _ => True
      end
      /\ friend_calls_bound os' (state_after o w)
  end.

(** Friendship stays mutual through every sequence of calls: whenever [b] is
    in the friend set of [a], [a] is in the friend set of [b]. *)
Theorem friendship_mutual os w a b ua ub :
  friends_ok w ->
  friend_calls_bound os w ->
  heap (state_after_all os w) !! a = Some ua ->
  heap (state_after_all os w) !! b = Some ub ->
  (b ∈ friends ua <-> a ∈ friends ub).
Proof.
  intros Hok Hcalls Ha Hb.
  assert (H : friends_ok (state_after_all os w)).
  { clear Ha Hb. revert w Hok Hcalls.
    induction os as [ | o os IH]; intros w Hok Hcalls; [ exact Hok | ].
    destruct Hcalls as [Ho Hcalls].
    cbn [state_after_all fold_left]. apply IH; [ | exact Hcalls ].
    destruct (is_add_friend o) eqn:Hkind.
    - destruct o; try discriminate Hkind. cbn [state_after].
      destruct Ho as [Hs Hn]. now apply friends_ok_add_friend.
    - exact (friends_ok_frame _ _ Hok (friends_frame_state_after o w Hkind)). }
  destruct H as [Hsym _]. split; intros Hin.
  - exact (Hsym a b ua ub Ha Hb Hin).
  - exact (Hsym b a ub ua Hb Ha Hin).
Qed.

(** ** Calls that move no money *)

Definition touches_no_balance (o : operation) : bool :=
  match o with
  | Call_User _ | Call_retrieve_feed _ | Call_add_friend _ _
  | Call_add_credit_card _ _ => true
  | _ => false
  end.

(** Making an object, reading a feed, befriending and attaching a card leave
    every balance as it was, whether the call returns or raises. *)
Theorem balances_untouched o w r u :
  touches_no_balance o = true ->
  heap w !! r = Some u ->
  exists u', heap (state_after o w) !! r = Some u' /\ balance u' = balance u.
Proof.
  intros Ho Hr.
  set (Q := fun u u' : User => balance u' = balance u).
  assert (Qr : forall v, Q v v) by reflexivity.
  assert (Qt : forall u1 u2 u3, Q u1 u2 -> Q u2 u3 -> Q u1 u3)
    by (unfold Q; congruence).
  pose proof (user_frame_refl Q Qr) as R1.
  pose proof (user_frame_trans Q Qt) as R2.
  pose proof (user_frame_update Q Qr) as R3.
  pose proof (user_frame_alloc Q Qr) as R4.
  assert (S1 : forall c, user_step Q (set_credit_card_number c))
    by (intros c v; reflexivity).
  assert (S2 : forall s, user_step Q (activity_feed_append s))
    by (intros s v; reflexivity).
  assert (S3 : forall x, user_step Q (friends_add x))
    by (intros x v; reflexivity).
  assert (H : user_frame Q w (state_after o w)).
  { destruct o as [name | self | self n | | self number | | | | ];
      try discriminate Ho; cbn [state_after].
    - exact (preserves_User_init (user_frame Q) (fun _ => True) R1 R4 (fun _ => I)
               name w).
    - eapply preserves_retrieve_feed; eauto.
    - eapply preserves_add_friend; eauto.
    - eapply preserves_add_credit_card; eauto. }
  exact (H r u Hr).
Qed.

(** ** Stored cards *)

(** From a state whose cards are valid, every card found after any sequence
    of calls is one of the two numbers of the allow-list. *)
Theorem stored_cards_allow_listed os w r u :
  cards_valid w ->
  heap (state_after_all os w) !! r = Some u ->
  credit_card_number u = None
  \/ credit_card_number u = Some "4111111111111111"
  \/ credit_card_number u = Some "4242424242424242".
Proof.
  intros Hw Hr.
  pose proof (cards_valid_state_after_all os w Hw r u Hr) as Hu.
  unfold card_valid in Hu. destruct (credit_card_number u) as [c | ]; [ | now left ].
  right. apply valid_credit_card_iff in Hu as [-> | ->]; auto.
Qed.

(** ** The properties on the test fixture *)

Lemma setUp_lookup r u :
  heap setUp !! r = Some u -> (r = 0%nat /\ u = bobby) \/ (r = 1%nat /\ u = carol).
Proof.
  unfold setUp. cbn [heap]. intros H.
  apply lookup_insert_Some in H as [[<- <-] | [_ H]]; [ now right | ].
  apply lookup_insert_Some in H as [[<- <-] | [_ H]]; [ now left | ].
  rewrite lookup_empty in H. discriminate H.
Qed.

Lemma setUp_registry_ok : registry_ok setUp.
Proof.
  intros name r H. unfold setUp in H. cbn [users] in H.
  apply lookup_insert_Some in H as [[<- <-] | [_ H]];
    [ exists carol; split; reflexivity | ].
  apply lookup_insert_Some in H as [[<- <-] | [_ H]];
    [ exists bobby; split; reflexivity | ].
  rewrite lookup_empty in H. discriminate H.
Qed.

Lemma setUp_friends_ok : friends_ok setUp.
Proof.
  split.
  - intros a b ua ub Ha _ Hin.
    apply setUp_lookup in Ha as [[_ ->] | [_ ->]];
      now apply not_elem_of_empty in Hin.
  - intros a ua b Ha Hin.
    apply setUp_lookup in Ha as [[_ ->] | [_ ->]];
      now apply not_elem_of_empty in Hin.
Qed.

Lemma setUp_cards_valid : cards_valid setUp.
Proof.
  intros r u H. apply setUp_lookup in H as [[_ ->] | [_ ->]]; reflexivity.
Qed.

Lemma pay_invalid_amount_witness :
  pay 0 1 (-5) "refund" setUp = (Raise InvalidAmountError, setUp).
Proof.
  apply (pay_invalid_amount setUp 0 1 bobby carol (-5) "refund").
  - reflexivity.
  - reflexivity.
  - vm_compute. discriminate.
  - reflexivity.
Defined.

Lemma pay_succeeds_iff_witness :
  (pay_accepts bobby carol 5 = true <->
   exists p w', pay 0 1 5 "Coffee" setUp = (Ok p, w'))
  /\ (forall p w', pay 0 1 5 "Coffee" setUp = (Ok p, w') ->
        p = mkPayment (uuid4 setUp (drawn setUp)) 5 0 1 "Coffee"
        /\ drawn w' = S (drawn setUp) /\ uuid4 w' = uuid4 setUp
        /\ users w' = users setUp).
Proof.
  apply (pay_succeeds_iff setUp 0 1 bobby carol 5 "Coffee").
  - reflexivity.
  - reflexivity.
Defined.

Lemma pay_frame_witness :
  (exists u' t',
     heap (pay 1 0 15 "Lunch" setUp).2 !! 1%nat = Some u'
     /\ heap (pay 1 0 15 "Lunch" setUp).2 !! 0%nat = Some t'
     /\ username u' = username carol /\ username t' = username bobby
     /\ credit_card_number u' = credit_card_number carol
     /\ credit_card_number t' = credit_card_number bobby
     /\ friends u' = friends carol /\ friends t' = friends bobby)
  /\ (forall r, r <> 1%nat -> r <> 0%nat ->
        heap (pay 1 0 15 "Lunch" setUp).2 !! r = heap setUp !! r).
Proof.
  apply (pay_frame setUp 1 0 carol bobby 15 "Lunch"
           (mkPayment (uuid_of 0) 15 1 0 "Lunch")).
  - vm_compute. reflexivity.
  - reflexivity.
  - reflexivity.
Defined.


Lemma pay_with_card_to_self_witness :
  exists w',
    pay_with_card 0 0 7 "gift" setUp
    = (Ok (mkPayment (uuid4 setUp (drawn setUp)) 7 0 0 "gift"), w')
    /\ heap w' !! 0%nat
       = Some (mkUser "Bobby" 5 (Some "4111111111111111") ∅
                 ["Bobby paid Bobby $7.00 for gift"; "Bobby paid Bobby $7.00 for gift"])
    /\ (forall r, r <> 0%nat -> heap w' !! r = heap setUp !! r).
Proof.
  apply (pay_with_card_to_self setUp 0 bobby 7 "gift"). reflexivity.
Defined.

Lemma pay_with_balance_to_self_witness :
  exists w',
    pay_with_balance 0 0 7 "gift" setUp
    = (Ok (mkPayment (uuid4 setUp (drawn setUp)) 7 0 0 "gift"), w')
    /\ heap w' !! 0%nat
       = Some (mkUser "Bobby" (5 - 7 + 7)%float (Some "4111111111111111") ∅
                 ["Bobby paid Bobby $7.00 for gift"; "Bobby paid Bobby $7.00 for gift"])
    /\ (forall r, r <> 0%nat -> heap w' !! r = heap setUp !! r).
Proof.
  apply (pay_with_balance_to_self setUp 0 bobby 7 "gift"). reflexivity.
Defined.

Lemma add_friend_self_witness :
  exists w',
    add_friend 0 0 setUp = (Ok tt, w')
    /\ heap w' !! 0%nat
       = Some (mkUser "Bobby" 5 (Some "4111111111111111") ({[ 0%nat ]} ∪ ∅)
                 ["Bobby and Bobby are now friends."; "Bobby and Bobby are now friends."])
    /\ (forall r, r <> 0%nat -> heap w' !! r = heap setUp !! r)
    /\ add_friend 0 0 w' = (Ok tt, w').
Proof.
  apply (add_friend_self setUp 0 bobby).
  - reflexivity.
  - unfold bobby. cbn [friends]. apply not_elem_of_empty.
Defined.

Lemma add_credit_card_first_witness :
  exists w',
    add_credit_card 0 "4242424242424242" two_accounts = (Ok tt, w')
    /\ heap w' !! 0%nat
       = Some (mkUser "Alice" 0.3 (Some "4242424242424242") ∅ [])
    /\ (forall r, r <> 0%nat -> heap w' !! r = heap two_accounts !! r)
    /\ (forall other, add_credit_card 0 other w' = (Raise DuplicateCardError, w')).
Proof.
  apply (add_credit_card_first two_accounts 0 alice "4242424242424242").
  - reflexivity.
  - reflexivity.
  - right. reflexivity.
Defined.

Lemma add_credit_card_refused_witness :
  add_credit_card 0 "4111111111111112" two_accounts
  = (Raise InvalidCreditCardError, two_accounts).
Proof.
  apply (add_credit_card_refused two_accounts 0 alice "4111111111111112").
  - reflexivity.
  - reflexivity.
  - discriminate.
  - discriminate.
Defined.

(** An empty card number is no card. *)
Lemma create_user_new_witness :
  exists r w',
    create_user "Dave_1" (-2) (Some "") setUp = (Ok r, w')
    /\ heap setUp !! r = None
    /\ heap w' !! r = Some (mkUser "Dave_1" (0 + -2)%float None ∅ [])
    /\ users w' = <[ "Dave_1" := r ]> (users setUp)
    /\ (forall r', r' <> r -> heap w' !! r' = heap setUp !! r').
Proof.
  apply (create_user_new setUp "Dave_1" (-2) (Some "")).
  - vm_compute. reflexivity.
  - reflexivity.
  - reflexivity.
Defined.

Lemma create_user_retry_witness :
  exists r w2,
    create_user "Dave_1" 3 (Some "4111111111111111")
      (create_user "Dave_1" 1 (Some "1234") setUp).2 = (Ok r, w2)
    /\ users w2 = <[ "Dave_1" := r ]> (users setUp)
    /\ heap w2 !! r
       = Some (mkUser "Dave_1" (0 + 3)%float (Some "4111111111111111") ∅ []).
Proof.
  apply (create_user_retry setUp "Dave_1" 1 (Some "1234")
           (create_user "Dave_1" 1 (Some "1234") setUp).2 3
           (Some "4111111111111111")).
  - vm_compute. reflexivity.
  - reflexivity.
Defined.

Lemma is_valid_username_length_witness : (4 <= String.length "Bobby" <= 16)%nat.
Proof. apply (is_valid_username_length "Bobby"). reflexivity. Defined.

(** The calls of [test_feed] and [test_add_friend], one after the other. *)
Definition test_calls : list operation :=
  [Call_pay 0 1 5 "Coffee"; Call_pay 1 0 15 "Lunch"; Call_add_friend 0 1].

Lemma usernames_never_change_witness :
  exists u', heap (state_after_all test_calls setUp) !! 0%nat = Some u'
             /\ username u' = username bobby.
Proof. apply (usernames_never_change test_calls setUp 0 bobby). reflexivity. Defined.

Lemma feeds_append_only_witness :
  exists u' added,
    heap (state_after_all test_calls setUp) !! 0%nat = Some u'
    /\ activity_feed u' = (activity_feed bobby ++ added)%list.
Proof. apply (feeds_append_only test_calls setUp 0 bobby). reflexivity. Defined.

Lemma friends_only_grow_witness :
  exists u', heap (state_after_all test_calls setUp) !! 0%nat = Some u'
             /\ friends bobby ⊆ friends u'.
Proof. apply (friends_only_grow test_calls setUp 0 bobby). reflexivity. Defined.

Lemma registry_consistent_witness :
  registry_ok (state_after_all test_calls setUp)
  /\ (forall n1 n2 r,
        users (state_after_all test_calls setUp) !! n1 = Some r ->
        users (state_after_all test_calls setUp) !! n2 = Some r -> n1 = n2).
Proof. apply (registry_consistent test_calls setUp). exact setUp_registry_ok. Defined.

(** Bobby and Carol after these calls. *)
Definition bobby_after : User :=
  mkUser "Bobby" 15 (Some "4111111111111111") ({[ 1%nat ]} ∪ ∅)
    ["Bobby paid Carol $5.00 for Coffee"; "Carol paid Bobby $15.00 for Lunch";
     "Bobby and Carol are now friends."].

Definition carol_after : User :=
  mkUser "Carol" 0 (Some "4242424242424242") ({[ 0%nat ]} ∪ ∅)
    ["Bobby paid Carol $5.00 for Coffee"; "Carol paid Bobby $15.00 for Lunch";
     "Bobby and Carol are now friends."].

Lemma test_calls_state :
  heap (state_after_all test_calls setUp) !! 0%nat = Some bobby_after
  /\ heap (state_after_all test_calls setUp) !! 1%nat = Some carol_after.
Proof. split; vm_compute; reflexivity. Qed.

Lemma friendship_mutual_witness :
  1%nat ∈ friends bobby_after <-> 0%nat ∈ friends carol_after.
Proof.
  apply (friendship_mutual test_calls setUp 0 1 bobby_after carol_after).
  - exact setUp_friends_ok.
  - vm_compute. repeat split; eauto.
  - vm_compute. reflexivity.
  - vm_compute. reflexivity.
Defined.

Lemma balances_untouched_witness :
  exists u', heap (state_after (Call_add_friend 0 1) setUp) !! 1%nat = Some u'
             /\ balance u' = balance carol.
Proof.
  apply (balances_untouched (Call_add_friend 0 1) setUp 1 carol).
  - reflexivity.
  - reflexivity.
Defined.

Lemma stored_cards_allow_listed_witness :
  credit_card_number carol_after = None
  \/ credit_card_number carol_after = Some "4111111111111111"
  \/ credit_card_number carol_after = Some "4242424242424242".
Proof.
  apply (stored_cards_allow_listed test_calls setUp 1 carol_after).
  - exact setUp_cards_valid.
  - vm_compute. reflexivity.
Defined.

Lemma pay_whole_balance_witness :
  exists p w' u',
    pay 0 1 (balance bobby) "Coffee" setUp = (Ok p, w')
    /\ pay 0 1 (balance bobby) "Coffee" setUp
       = pay_with_balance 0 1 (balance bobby) "Coffee" setUp
    /\ heap w' !! 0%nat = Some u'
    /\ balance u' = 0%float.
Proof.
  apply (pay_whole_balance setUp 0 1 bobby carol "Coffee").
  - reflexivity.
  - reflexivity.
  - vm_compute. discriminate.
  - reflexivity.
  - reflexivity.
Defined.


(** ** A card payment into a large balance *)

(** A payer with 0.5 and a card, a holder of 1e16 without one. *)
Definition payer_half : User := mkUser "Alice" 0.5 (Some "4111111111111111") ∅ [].
Definition holder_1e16 : User := mkUser "Bruno" 1e16 None ∅ [].

Definition large_balance : World :=
  mkWorld (<[ 1%nat := holder_1e16 ]> (<[ 0%nat := payer_half ]> ∅))
          (<[ "Bruno" := 1%nat ]> (<[ "Alice" := 0%nat ]> ∅))
          uuid_of 0.

Lemma large_balance_created :
  (let! a := create_user "Alice" 0.5 (Some "4111111111111111") in
   let! b := create_user "Bruno" 1e16 None in
   ret (a, b)) empty_world
  = (Ok (0%nat, 1%nat), large_balance).
Proof. vm_compute. reflexivity. Qed.

(** A payment of 1 from a balance of 0.5 takes the card path; the sum
    1e16 + 1 rounds back to 1e16, so the target's balance after the payment
    is the one before it, not higher by the amount. *)
Lemma card_payment_not_exact_increase :
  exists p w' a' b',
    pay 0 1 1 "fee" large_balance = pay_with_card 0 1 1 "fee" large_balance
    /\ pay 0 1 1 "fee" large_balance = (Ok p, w')
    /\ heap w' !! 0%nat = Some a' /\ heap w' !! 1%nat = Some b'
    /\ balance a' = 0.5%float
    /\ balance holder_1e16 = 1e16%float
    /\ balance b' = 1e16%float
    /\ (balance b' - balance holder_1e16 =? 1)%float = false
    /\ (balance b' =? balance holder_1e16)%float = true.
Proof.
  eexists _, _, _, _.
  split; [ vm_compute; reflexivity | ].
  split; [ vm_compute; reflexivity | ].
  split; [ vm_compute; reflexivity | ].
  split; [ vm_compute; reflexivity | ].
  repeat split; vm_compute; reflexivity.
Qed.
